(** * Quote-to-PDF export of the Art Brasil catalogue: a shallow embedding

    The development follows [src/services/pdfService.ts] (the image
    resolver [getBase64ImageFromURL] and the composer [generatePDF]) and the
    cart operations of [src/App.tsx].

    Modelling conventions.
    - A JavaScript number is either [NaN] or an exact rational ([Q]);
      the infinities are left out, and so is the rounding of binary64
      arithmetic, except where the catalogue computes a new id
      ([App.handleAddProduct]), which takes the rounding as a parameter.
    - A JavaScript string is the list of its UTF-16 code units.
    - Code that can raise (property access on [undefined], a method call on
      a value that has no such method) lives in the error monad [exn].
    - Effects on the outside world (the alert box, the network, the jsPDF
      document, the download) are recorded in order, as a list of [op].
    - jsPDF's [addImage] raises on a payload it cannot decode; which
      payloads it decodes is a parameter ([decoder]) of the code that
      draws images.
    - How [new Date] reads a day that its month does not have differs
      between engines; the engine is a field of the [host]. *)

From Stdlib Require Import ZArith QArith Qcanon Qminmax Qround Qabs Lia Lqa List Ascii String.
From stdpp Require Import gmap.
Import ListNotations.

Local Open Scope Z_scope.

(** ** JavaScript values *)

Module Js.

(** UTF-16 code units. *)
Definition jsstring := list N.

(** An ASCII literal of the source as a [jsstring]. *)
Definition lit (s : string) : jsstring :=
  List.map N_of_ascii (list_ascii_of_string s).

Inductive jsnum :=
| Num (q : Q)
| NaN.

Inductive jsval :=
| JUndefined
| JNull
| JBool (b : bool)
| JNumber (n : jsnum)
| JString (s : jsstring).

Definition isEmptyString (s : jsstring) : bool :=
  match s with [] => true | _ => false end.

Definition numTruthy (n : jsnum) : bool :=
  match n with
  | Num q => negb (Qeq_bool q 0)
  | NaN => false
  end.

(** ToBoolean. *)
Definition truthy (v : jsval) : bool :=
  match v with
  | JUndefined | JNull => false
  | JBool b => b
  | JNumber n => numTruthy n
  | JString s => negb (isEmptyString s)
  end.

(** [a || b]. *)
Definition or_else (a b : jsval) : jsval := if truthy a then a else b.

(** [typeof v === 'string'] *)
Definition isString (v : jsval) : bool :=
  match v with JString _ => true | _ => false end.

(** Decimal numeral of a natural number. *)
Fixpoint digitsN (fuel : nat) (n : N) (acc : jsstring) : jsstring :=
  match fuel with
  | O => acc
  | S fuel' =>
      let acc' := (48 + n mod 10)%N :: acc in
      if (n / 10 =? 0)%N then acc' else digitsN fuel' (n / 10)%N acc'
  end.

Definition decimalN (n : N) : jsstring :=
  digitsN (S (N.to_nat (N.log2 n))) n [].

(** Digits after the decimal point by long division, [r < d]. *)
Fixpoint fractionDigits (fuel : nat) (r d : N) : jsstring :=
  match fuel with
  | O => []
  | S fuel' =>
      if (r =? 0)%N then []
      else (48 + (10 * r) / d)%N :: fractionDigits fuel' ((10 * r) mod d)%N d
  end.

(** Number::toString for the values of this model: the decimal expansion
    of the rational (integers print without a point).  A binary64 value
    prints with at most 17 significant digits, hence the bound; exponent
    notation, used by JavaScript beyond 1e21 and below 1e-6, is left out. *)
Definition numToString (n : jsnum) : jsstring :=
  match n with
  | NaN => lit "NaN"
  | Num q =>
      let q' := Qred q in
      let a := Z.abs_N (Qnum q') in
      let d := Npos (Qden q') in
      let sign := if (Qnum q' <? 0)%Z then lit "-" else [] in
      let frac := fractionDigits 20 (a mod d)%N d in
      sign ++ decimalN (a / d)%N ++
        (if isEmptyString frac then [] else lit "." ++ frac)
  end.

(** ToString on primitives. *)
Definition toString (v : jsval) : jsstring :=
  match v with
  | JUndefined => lit "undefined"
  | JNull => lit "null"
  | JBool true => lit "true"
  | JBool false => lit "false"
  | JNumber n => numToString n
  | JString s => s
  end.

(** ToNumber on the primitives that are not strings (the only use, in
    [add], comes after the string case). *)
Definition toNumberNonString (v : jsval) : jsnum :=
  match v with
  | JUndefined => NaN
  | JNull => Num 0
  | JBool true => Num 1
  | JBool false => Num 0
  | JNumber n => n
  | JString _ => NaN
  end.

Definition numAdd (a b : jsnum) : jsnum :=
  match a, b with
  | Num x, Num y => Num (x + y)
  | _, _ => NaN
  end.

(** The binary [+]: concatenation as soon as one operand is a string,
    numeric addition otherwise. *)
Definition add (a b : jsval) : jsval :=
  if isString a || isString b
  then JString (toString a ++ toString b)
  else JNumber (numAdd (toNumberNonString a) (toNumberNonString b)).

(** [s.startsWith(p)] on code units. *)
Fixpoint startsWith (s p : jsstring) : bool :=
  match p, s with
  | [], _ => true
  | _ :: _, [] => false
  | c :: p', c' :: s' => (c =? c')%N && startsWith s' p'
  end.

(** Exceptions. *)
Inductive error :=
| TypeError (what : string)
| EngineError (what : string).

Inductive exn (A : Type) :=
| Ret (a : A)
| Throw (e : error).
Arguments Ret {A} a.
Arguments Throw {A} e.

Definition bind {A B} (m : exn A) (k : A -> exn B) : exn B :=
  match m with
  | Ret a => k a
  | Throw e => Throw e
  end.

(** [v.startsWith(p)] on an arbitrary value: only strings have the
    method. *)
Definition callStartsWith (v : jsval) (p : jsstring) : exn bool :=
  match v with
  | JString s => Ret (startsWith s p)
  | _ => Throw (TypeError "startsWith is not a function")
  end.

End Js.

Import Js.

(** [exn] with stdpp's monad notations ([x ← m; k]). *)
Global Instance exn_ret : MRet exn := @Ret.
Global Instance exn_bind : MBind exn := fun A B k m => bind m k.


(** ** The image resolver ([getBase64ImageFromURL]) *)

(** Milliseconds since the call. *)
Definition time := N.

(** What the canvas does once the image has loaded. *)
Inductive canvasOutcome :=
| NoContext                       (* getContext('2d') gave null *)
| CanvasThrows                    (* drawImage or toDataURL raised *)
| Encoded (body : jsstring).      (* toDataURL('image/png') gave the
                                     data: URL with this body *)

(** What the browser does with an image whose [src] was set. *)
Inductive loadOutcome :=
| Loads (at_ms : time) (c : canvasOutcome)   (* onload runs *)
| Fails (at_ms : time)                       (* onerror runs *)
| NeverSettles.

Definition network := jsstring -> loadOutcome.

Inductive settlement :=
| Fulfilled (at_ms : time) (v : option jsstring)
| Rejected (e : error)
| Pending.

Record resolution := {
  settled : settlement;
  requested : list jsstring   (* every [img.src = url] *)
}.

(** The test of line 11, [!url || typeof url !== 'string' ||
    !url.startsWith('http')], with the short-circuit of [||]. *)
Definition refusesUrl (url : jsval) : exn bool :=
  if negb (truthy url) then mret true
  else if negb (isString url) then mret true
  else b ← callStartsWith url (lit "http"); mret (negb b).

(** The values that pass that test: the non-empty strings that start
    with [http]. *)
Definition acceptsUrl (url : jsval) : bool :=
  match url with
  | JString s => negb (isEmptyString s) && startsWith s (lit "http")
  | _ => false
  end.

(** The body of [img.onload]: the [try]/[catch] turns a raise into null. *)
Definition onload (c : canvasOutcome) : option jsstring :=
  match c with
  | NoContext => None
  | CanvasThrows => None
  | Encoded body => Some (lit "data:" ++ body)
  end.

(** The call of [resolve] made by the image's handler, if one runs. *)
Definition imageResolve (o : loadOutcome) : option (time * option jsstring) :=
  match o with
  | Loads t c => Some (t, onload c)
  | Fails t => Some (t, None)
  | NeverSettles => None
  end.

Definition timeoutMs : time := 5000%N.

(** A promise keeps the first [resolve] it gets.  The timer's
    [resolve(null)] is due at [timeoutMs]; the handler's call counts when
    it runs before that. *)
Definition firstResolve (img : option (time * option jsstring))
  : time * option jsstring :=
  match img with
  | Some (t, v) => if (t <? timeoutMs)%N then (t, v) else (timeoutMs, None)
  | None => (timeoutMs, None)
  end.

(** A raise inside the executor of [new Promise] rejects the promise. *)
Definition getBase64ImageFromURL (net : network) (url : jsval) : resolution :=
  match refusesUrl url with
  | Throw e => {| settled := Rejected e; requested := [] |}
  | Ret true => {| settled := Fulfilled 0%N None; requested := [] |}
  | Ret false =>
      let src := toString url in
      let '(t, v) := firstResolve (imageResolve (net src)) in
      {| settled := Fulfilled t v; requested := [src] |}
  end.

(** ** Dates ([new Date(s)], [toLocaleDateString('pt-BR')]) *)

Module JsDate.

Definition msPerDay : Z := 86400000.

(** Day number (days since 1970-01-01) of a proleptic Gregorian date. *)
Definition daysFromCivil (y m d : Z) : Z :=
  let y' := if m <=? 2 then y - 1 else y in
  let era := y' / 400 in
  let yoe := y' - era * 400 in
  let mp := (m + 9) mod 12 in
  let doy := (153 * mp + 2) / 5 + d - 1 in
  let doe := yoe * 365 + yoe / 4 - yoe / 100 + doy in
  era * 146097 + doe - 719468.

(** Year, month and day of a day number. *)
Definition civilFromDays (z : Z) : Z * Z * Z :=
  let z' := z + 719468 in
  let era := z' / 146097 in
  let doe := z' - era * 146097 in
  let yoe := (doe - doe / 1460 + doe / 36524 - doe / 146096) / 365 in
  let doy := doe - (365 * yoe + yoe / 4 - yoe / 100) in
  let mp := (5 * doy + 2) / 153 in
  let d := doy - (153 * mp + 2) / 5 + 1 in
  let m := if mp <? 10 then mp + 3 else mp - 9 in
  let y := yoe + era * 400 in
  (if m <=? 2 then y + 1 else y, m, d).

Definition isLeap (y : Z) : bool :=
  ((y mod 4 =? 0) && negb (y mod 100 =? 0)) || (y mod 400 =? 0).

Definition daysInMonth (y m : Z) : Z :=
  if m =? 2 then (if isLeap y then 29 else 28)
  else if (m =? 4) || (m =? 6) || (m =? 9) || (m =? 11) then 30
  else 31.

(** A [Date] object: a time value (milliseconds since the epoch, UTC) or
    the invalid date. *)
Inductive date :=
| TimeValue (ms : Z)
| InvalidDate.

Definition digit (c : N) : option Z :=
  if ((48 <=? c) && (c <=? 57))%N then Some (Z.of_N c - 48) else None.

(** The number written by a run of decimal digits. *)
Fixpoint number (acc : Z) (cs : jsstring) : option Z :=
  match cs with
  | [] => Some acc
  | c :: cs' =>
      match digit c with
      | Some k => number (10 * acc + k) cs'
      | None => None
      end
  end.

Definition fixedNumber (width : nat) (cs : jsstring) : option Z :=
  if Nat.eqb (List.length cs) width then number 0 cs else None.

(** The calendar part of the date-time string format: [YYYY], [YYYY-MM]
    or [YYYY-MM-DD]; a missing month or day is 1. *)
Definition parseCalendar (cs : jsstring) : option (Z * Z * Z) :=
  match List.length cs with
  | 4%nat => y ← fixedNumber 4 cs; Some (y, 1, 1)
  | 7%nat =>
      y ← fixedNumber 4 (firstn 4 cs);
      m ← fixedNumber 2 (skipn 5 cs);
      if (nth 4 cs 0 =? 45)%N then Some (y, m, 1) else None
  | 10%nat =>
      y ← fixedNumber 4 (firstn 4 cs);
      m ← fixedNumber 2 (firstn 2 (skipn 5 cs));
      d ← fixedNumber 2 (skipn 8 cs);
      if ((nth 4 cs 0 =? 45) && (nth 7 cs 0 =? 45))%N
      then Some (y, m, d) else None
  | _ => None
  end.

(** The time part [THH:mm:ss]. *)
Definition parseClock (cs : jsstring) : option (Z * Z * Z) :=
  match cs with
  | [t; h1; h2; c1; m1; m2; c2; s1; s2] =>
      h ← number 0 [h1; h2];
      m ← number 0 [m1; m2];
      s ← number 0 [s1; s2];
      if ((t =? 84) && (c1 =? 58) && (c2 =? 58))%N then Some (h, m, s) else None
  | _ => None
  end.

(** What every engine asks of the fields: a month from 1 to 12, a day
    from 1 to 31 and a time of the day. *)
Definition validFields (y m d h mi s : Z) : bool :=
  (1 <=? m) && (m <=? 12) && (1 <=? d) && (d <=? 31) &&
  (((h <=? 23) && (mi <=? 59) && (s <=? 59)) ||
   ((h =? 24) && (mi =? 0) && (s =? 0))).

(** The day exists in that month of that year. *)
Definition inCalendar (y m d : Z) : bool := d <=? daysInMonth y m.

(** Where the engines differ.  A day up to 31 that its month does not
    have is counted on into the next month by some (V8) and refused by
    others; and a string outside the date-time format is left to each
    engine's own reading ([legacy], given the zone offset). *)
Record engine := {
  rollsOver : bool;
  legacy : Z -> jsstring -> date
}.

(** [new Date(s)] for a date-time string without a zone designator,
    which is read as local time; [tz] is the host's offset from UTC in
    minutes.  (The six-digit years of the format are left out.) *)
Definition parseLocal (e : engine) (tz : Z) (s : jsstring) : date :=
  let n := List.length s in
  match parseCalendar (firstn (n - 9) s), parseClock (skipn (n - 9) s) with
  | Some (y, m, d), Some (h, mi, sec) =>
      if validFields y m d h mi sec && (inCalendar y m d || rollsOver e)
      then TimeValue
             (daysFromCivil y m d * msPerDay
              + ((h * 60 + mi) * 60 + sec) * 1000 - tz * 60000)
      else InvalidDate
  | _, _ => legacy e tz s
  end.

Definition twoDigits (k : Z) : jsstring :=
  (if k <? 10 then lit "0" else []) ++ decimalN (Z.to_N k).

(** The year as the locale prints it: the year of the era, so that the
    year 0 (1 BC) prints as 1. *)
Definition displayYear (y : Z) : Z := if y <=? 0 then 1 - y else y.

(** [dd/mm/yyyy], the short date of pt-BR. *)
Definition shortDate (ymd : Z * Z * Z) : jsstring :=
  let '(y, m, d) := ymd in
  twoDigits d ++ lit "/" ++ twoDigits m ++ lit "/"
  ++ decimalN (Z.to_N (displayYear y)).

(** [toLocaleDateString('pt-BR')] in the host's zone. *)
Definition toLocaleDateString (tz : Z) (t : date) : jsstring :=
  match t with
  | InvalidDate => lit "Invalid Date"
  | TimeValue ms => shortDate (civilFromDays ((ms + tz * 60000) / msPerDay))
  end.

End JsDate.

(** ** Data model ([src/types.ts]) as the composer receives it *)

(** One element of [items] that is an object.  [id] is a number as
    declared, or absent; the other properties hold whatever value the
    caller stored, [JUndefined] when the property is absent. *)
Record ItemObject := {
  id : option jsnum;
  nome : jsval;
  cm : jsval;
  valor : jsval;
  imagem : jsval;
  quantity : jsval;
  total : jsval
}.

(** One element of the array passed as [items]. *)
Inductive entry :=
| Primitive (v : jsval)
| Object (it : ItemObject).

(** [ClientInfo]: three strings, [None] for an absent one. *)
Record ClientInfo := {
  name : option jsstring;
  phone : option jsstring;
  date : option jsstring
}.

Definition present (o : option jsstring) : bool :=
  match o with
  | Some s => negb (isEmptyString s)
  | None => false
  end.

(** [o || fallback] on an optional string. *)
Definition orDefault (o : option jsstring) (fallback : jsstring) : jsstring :=
  match o with
  | Some s => if isEmptyString s then fallback else s
  | None => fallback
  end.

(** ** The image cache *)

(** The property name under which an id is stored in [imageCache]:
    ToString of the id.  Distinct numbers have distinct numerals, so the
    name is kept as the number itself, in lowest terms. *)
Inductive propertyKey :=
| KeyNumber (q : Qc)
| KeyNaN
| KeyUndefined.

Definition toPropertyKey (i : option jsnum) : propertyKey :=
  match i with
  | Some (Num q) => KeyNumber (Q2Qc q)
  | Some NaN => KeyNaN
  | None => KeyUndefined
  end.

Global Instance propertyKey_eq_dec : EqDecision propertyKey.
Proof. solve_decision. Defined.

Global Instance propertyKey_countable : Countable propertyKey.
Proof.
  refine (inj_countable'
    (fun k => match k with
              | KeyNumber q => inl q
              | KeyNaN => inr true
              | KeyUndefined => inr false
              end)
    (fun s => match s with
              | inl q => KeyNumber q
              | inr true => KeyNaN
              | inr false => KeyUndefined
              end) _).
  intros []; reflexivity.
Defined.

(** [Record<string | number, string | null>]: no entry, a null entry or
    a payload. *)
Abbreviation imageCacheT := (gmap propertyKey (option jsstring)).

(** [item.id] as a condition. *)
Definition idTruthy (i : option jsnum) : bool :=
  match i with
  | Some n => numTruthy n
  | None => false
  end.

(** [imageCache[k]] as a condition: undefined, null and the empty string
    are falsy. *)
Definition cachedImage (cache : imageCacheT) (k : propertyKey)
  : option jsstring :=
  match cache !! k with
  | Some (Some data) => if isEmptyString data then None else Some data
  | _ => None
  end.

(** ** The document and the outside world *)

Inductive align := AlignLeft | AlignRight | AlignCenter.

(** Text handed to jsPDF.  The output of [Intl.NumberFormat('pt-BR',
    {style: 'currency', currency: 'BRL'}).format(v)] is kept symbolic. *)
Inductive content :=
| Literal (s : jsstring)
| Currency (v : jsval).

Inductive tableSection := Head | Body | Foot.

(** The argument of the [didDrawCell] hook. *)
Record CellHookData := {
  section : tableSection;
  columnIndex : Z;
  rowIndex : Z;
  cellX : Q;
  cellY : Q;
  cellWidth : Q;
  cellHeight : Q
}.

Inductive op :=
| Alert (msg : jsstring)
| NewDocument
| Request (src : jsstring)
| AddImage (data : jsstring) (x y w h : Q)
| SetFontSize (size : Z)
| SetTextColor (r g b : Z)
| SetDrawColor (r g b : Z)
| SetFillColor (r g b : Z)
| SetFont (family style : string)
| Text (c : content) (x y : Q) (a : align)
| Line (x1 y1 x2 y2 : Q)
| AutoTable (startY : Q) (head : list jsstring) (body : list (list content))
| AddPage
| RoundedRect (x y w h rx ry : Q)
| Save (filename : jsstring).

(** What jspdf-autotable does with a table: the cells it draws, in its
    own order and with its own geometry, and the [lastAutoTable.finalY]
    it leaves on the document (if any). *)
Record tableRun := {
  drawnCells : list CellHookData;
  lastAutoTable : option Q
}.

(** Everything [generatePDF] depends on besides its arguments. *)
Record host := {
  net : network;
  tzOffset : Z;                (* minutes east of UTC *)
  now : Z;                     (* time value of [new Date()] *)
  dateEngine : JsDate.engine;  (* the engine's way with dates *)
  layout : list (list content) -> tableRun;
  pageHeight : Q               (* doc.internal.pageSize.getHeight() *)
}.

(** How a call of the async function ends. *)
Inductive outcome :=
| Returned (trace : list op)
| Raised (trace : list op) (e : error)
| Stuck (trace : list op).

Definition traceOf (o : outcome) : list op :=
  match o with
  | Returned t | Raised t _ | Stuck t => t
  end.

(** ** [generatePDF], step by step *)

(** [typeof v === 'object'] on a primitive: only [null] answers yes. *)
Definition typeofObject (v : jsval) : bool :=
  match v with JNull => true | _ => false end.

(** The predicate of the filter on line 48. *)
Definition isValidEntry (e : entry) : bool :=
  match e with
  | Primitive v => truthy v && typeofObject v
  | Object _ => true
  end.

(** Line 48: [[...(items || [])].filter(...)]; [None] stands for a null
    or undefined [items]. *)
Definition validItems (items : option (list entry)) : list ItemObject :=
  List.flat_map
    (fun e => match e with
              | Object it => if isValidEntry e then [it] else []
              | Primitive _ => []
              end)
    (List.filter isValidEntry (default [] items)).

Definition zero : jsval := JNumber (Num 0).

(** Line 56. *)
Definition totalPrice (valid : list ItemObject) : jsval :=
  fold_left (fun sum item => add sum (or_else (total item) zero)) valid zero.

(** Lines 60-66.  The callback of [map] runs for every item in turn: the
    resolver is called at once, the store into the cache waits for its
    promise. *)
Definition wantsImage (item : ItemObject) : bool :=
  idTruthy (id item) && truthy (imagem item).

Definition startResolutions (n : network) (valid : list ItemObject)
  : list (propertyKey * resolution) :=
  List.flat_map
    (fun item =>
       if wantsImage item
       then [(toPropertyKey (id item), getBase64ImageFromURL n (imagem item))]
       else [])
    valid.

Inductive joined :=
| AllSettled (stores : list (time * propertyKey * option jsstring))
| Rejects (e : error)
| Hangs.

(** [await Promise.all(...)]. *)
Fixpoint joinAll (rs : list (propertyKey * resolution)) : joined :=
  match rs with
  | [] => AllSettled []
  | (k, r) :: rest =>
      match settled r, joinAll rest with
      | Rejected e, _ => Rejects e
      | _, Rejects e => Rejects e
      | Pending, _ => Hangs
      | _, Hangs => Hangs
      | Fulfilled t v, AllSettled stores => AllSettled ((t, k, v) :: stores)
      end
  end.

(** The stores happen as the promises settle: by time, and in the order
    of the items among those that settle together. *)
Fixpoint insertByTime (s : time * propertyKey * option jsstring)
  (l : list (time * propertyKey * option jsstring)) :=
  match l with
  | [] => [s]
  | s' :: l' =>
      if (fst (fst s) <? fst (fst s'))%N then s :: l
      else s' :: insertByTime s l'
  end.

Definition inSettlingOrder (l : list (time * propertyKey * option jsstring)) :=
  fold_left (fun sorted s => insertByTime s sorted) l [].

Definition storeAll (stores : list (time * propertyKey * option jsstring))
  : imageCacheT :=
  fold_left (fun cache s => <[snd (fst s) := snd s]> cache)
    (inSettlingOrder stores) ∅.

Definition requestsOf (rs : list (propertyKey * resolution)) : list op :=
  List.flat_map (fun kr => List.map Request (requested (snd kr))) rs.

(** Lines 69-77: the logo; a rejection would be caught and logged. *)
Definition logoUrl : jsstring :=
  lit "https://i.postimg.cc/dts7TZmg/ARTBRASIL.png".

(** [doc.addImage] raises on a payload it cannot decode, and draws
    nothing then.  A [decoder] tells which payloads the jsPDF at hand
    accepts. *)
Definition decoder := jsstring -> bool.

(** A jsPDF that accepts whatever it is given. *)
Definition acceptsAll : decoder := fun _ => true.

Definition undecodable : error :=
  EngineError "addImage: the image cannot be decoded".

Definition addImage (decodes : decoder) (data : jsstring) (x y w h : Q)
  : exn (list op) :=
  if decodes data then Ret [AddImage data x y w h] else Throw undecodable.

(** Lines 72-76, inside the [try]: a raise of [addImage] is caught and
    only logged. *)
Definition logoOps (decodes : decoder) (v : option jsstring) : list op :=
  match v with
  | Some base64Logo =>
      if isEmptyString base64Logo then []
      else match addImage decodes base64Logo 15 10 35 12 with
           | Ret ops => ops
           | Throw _ => []
           end
  | None => []
  end.

(** Line 88. *)
Definition dateStr (h : host) (client : ClientInfo) : jsstring :=
  if present (date client)
  then JsDate.toLocaleDateString (tzOffset h)
         (JsDate.parseLocal (dateEngine h) (tzOffset h)
            (default [] (date client) ++ lit "T12:00:00"))
  else JsDate.toLocaleDateString (tzOffset h) (JsDate.TimeValue (now h)).

(** Lines 80-109: title, issue date, divider and client block. *)
Definition headerOps (h : host) (client : ClientInfo) : list op :=
  [ SetFontSize 18; SetTextColor 30 41 59; SetFont "helvetica" "bold";
    Text (Literal (lit "OR" ++ [199%N] ++ lit "AMENTO")) 195 20 AlignRight;
    SetFontSize 9; SetTextColor 100 116 139; SetFont "helvetica" "normal";
    Text (Literal (lit "Emiss" ++ [227%N] ++ lit "o: " ++ dateStr h client))
      195 26 AlignRight;
    SetDrawColor 241 245 249; Line 15 35 195 35;
    SetFontSize 9; SetTextColor 100 116 139;
    Text (Literal (lit "DADOS DO CLIENTE:")) 15 43 AlignLeft;
    SetFontSize 11; SetTextColor 30 41 59; SetFont "helvetica" "bold";
    Text (Literal (orDefault (name client) (lit "Consumidor Final")))
      15 49 AlignLeft ]
  ++ (if present (phone client)
      then [ SetFontSize 10; SetFont "helvetica" "normal";
             SetTextColor 71 85 105;
             Text (Literal (lit "Contato: " ++ default [] (phone client)))
               15 55 AlignLeft ]
      else []).

(** Lines 112-119. *)
Definition tableRow (item : ItemObject) : list content :=
  [ Literal [];
    Literal (toString (or_else (nome item) (JString (lit "Produto"))));
    Literal (toString (or_else (cm item) (JString (lit "0"))) ++ lit " cm");
    Literal (toString (or_else (quantity item) zero));
    Currency (or_else (valor item) zero);
    Currency (or_else (total item) zero) ].

Definition tableHead : list jsstring :=
  [lit "FOTO"; lit "PRODUTO"; lit "TAM."; lit "QTD"; lit "VALOR UN.";
   lit "TOTAL"].

(** [validItems[rowIndex]]: undefined outside the array. *)
Definition arrayGet {A} (l : list A) (i : Z) : option A :=
  if i <? 0 then None else l !! Z.to_nat i.

(** [currentItem.id]: raises on undefined. *)
Definition getId (o : option ItemObject) : exn (option jsnum) :=
  match o with
  | Some item => mret (id item)
  | None => Throw (TypeError "Cannot read properties of undefined")
  end.

Definition isBody (s : tableSection) : bool :=
  match s with Body => true | _ => false end.

Definition imgSize : Q := 18.

(** Lines 151-168.  Nothing catches a raise of [addImage] here. *)
Definition didDrawCell (decodes : decoder) (valid : list ItemObject)
  (cache : imageCacheT) (data : CellHookData) : exn (list op) :=
  if isBody (section data) && (columnIndex data =? 0) then
    let currentItem := arrayGet valid (rowIndex data) in
    guard ← (if bool_decide (is_Some currentItem)
             then i ← getId currentItem; mret (idTruthy i)
             else mret false);
    if (guard : bool) then
      i ← getId currentItem;
      match cachedImage cache (toPropertyKey i) with
      | Some base64 =>
          let xPos := (cellX data + (cellWidth data - imgSize) / 2)%Q in
          let yPos := (cellY data + (cellHeight data - imgSize) / 2)%Q in
          addImage decodes base64 xPos yPos imgSize imgSize
      | None => mret []
      end
    else mret []
  else mret [].

(** The hook as autotable calls it, cell after cell; a raise ends the
    drawing. *)
Fixpoint drawCells (hook : CellHookData -> exn (list op))
  (cells : list CellHookData) : list op * option error :=
  match cells with
  | [] => ([], None)
  | c :: cells' =>
      match hook c with
      | Throw e => ([], Some e)
      | Ret ops =>
          let '(rest, e) := drawCells hook cells' in (ops ++ rest, e)
      end
  end.

(** [a > b] on numbers. *)
Definition gt (a b : Q) : bool := negb (Qle_bool a b).

(** Line 174. *)
Definition finalY (run : tableRun) : Q := default 150%Q (lastAutoTable run).

(** Lines 176-182: whether a page is added. *)
Definition footerOverflows (run : tableRun) (pageH : Q) : bool :=
  gt (finalY run + 10 + 40)%Q pageH.

Definition footerY (run : tableRun) (pageH : Q) : Q :=
  if footerOverflows run pageH then 20%Q else (finalY run + 10)%Q.

Definition tagline : jsstring :=
  lit "Art Brasil Imagens - Devo" ++ [231%N; 227%N] ++ lit "o em cada detalhe.".

Definition validityNote : jsstring :=
  lit "Pre" ++ [231%N] ++ lit "os sujeitos a altera" ++ [231%N; 227%N]
  ++ lit "o sem aviso pr" ++ [233%N] ++ lit "vio. Or" ++ [231%N]
  ++ lit "amento v" ++ [225%N] ++ lit "lido por 15 dias.".

(** Lines 184-203, drawn at height [y]. *)
Definition footerBody (y : Q) (totalPrice : jsval) : list op :=
  [ SetFillColor 248 250 252; RoundedRect 130 y 65 15 2 2;
    SetFontSize 10; SetFont "helvetica" "bold"; SetTextColor 71 85 105;
    Text (Literal (lit "VALOR TOTAL:")) 135 (y + 9)%Q AlignLeft;
    SetFontSize 14; SetTextColor 79 70 229;
    Text (Currency totalPrice) 190 (y + 9)%Q AlignRight;
    SetFontSize 8; SetTextColor 148 163 184; SetFont "helvetica" "italic";
    Text (Literal tagline) 105 (y + 30)%Q AlignCenter;
    Text (Literal validityNote) 105 (y + 34)%Q AlignCenter ].

(** Lines 174-203. *)
Definition footerOps (run : tableRun) (pageH : Q) (totalPrice : jsval)
  : list op :=
  (if footerOverflows run pageH then [AddPage] else [])
  ++ footerBody (footerY run pageH) totalPrice.

(** [/[^a-z0-9]/gi] matches a code unit outside these ranges (the
    case-insensitive match never folds a unit above 127 onto an ASCII
    letter). *)
Definition isAlnum (c : N) : bool :=
  (((48 <=? c) && (c <=? 57)) || ((65 <=? c) && (c <=? 90))
   || ((97 <=? c) && (c <=? 122)))%N.

Definition underscore : N := 95%N.

(** Line 206. *)
Definition cleanClientName (client : ClientInfo) : jsstring :=
  firstn 30
    (List.map (fun c => if isAlnum c then c else underscore)
       (orDefault (name client) (lit "Cliente"))).

(** Line 207. *)
Definition fileName (client : ClientInfo) : jsstring :=
  lit "Orcamento_" ++ cleanClientName client ++ lit ".pdf".

Definition emptyCartNotice : jsstring :=
  lit "Adicione itens ao or" ++ [231%N]
  ++ lit "amento antes de exportar.".

(** Lines 46-208.  [decodes] is the jsPDF at hand; a raise of the draw
    hook leaves [autoTable] and rejects the promise of the call, with the
    table begun and nothing saved. *)
Definition generatePDF (decodes : decoder) (h : host)
  (items : option (list entry)) (client : ClientInfo) : outcome :=
  let valid := validItems items in
  if Nat.eqb (List.length valid) 0 then Returned [Alert emptyCartNotice]
  else
    let total := totalPrice valid in
    let resolutions := startResolutions (net h) valid in
    let t1 := NewDocument :: requestsOf resolutions in
    match joinAll resolutions with
    | Rejects e => Raised t1 e
    | Hangs => Stuck t1
    | AllSettled stores =>
        let imageCache := storeAll stores in
        let logo := getBase64ImageFromURL (net h) (JString logoUrl) in
        let t2 := t1 ++ List.map Request (requested logo) in
        match settled logo with
        | Pending => Stuck t2
        | settledLogo =>
            let t3 :=
              t2 ++ (match settledLogo with
                     | Fulfilled _ v => logoOps decodes v
                     | _ => []
                     end)
                 ++ headerOps h client in
            let tableRows := List.map tableRow valid in
            let run := layout h tableRows in
            let t4 := t3 ++ [AutoTable 65 tableHead tableRows] in
            match drawCells (didDrawCell decodes valid imageCache)
                    (drawnCells run) with
            | (drawn, Some e) => Raised (t4 ++ drawn) e
            | (drawn, None) =>
                Returned
                  (t4 ++ drawn
                   ++ footerOps run (pageHeight h) total
                   ++ [Save (fileName client)])
            end
        end
    end.

(** ** The cart ([src/App.tsx]) *)

(** Here the values are the ones the application itself builds, typed as
    [src/types.ts] declares them. *)
Module Cart.

Record Product := {
  id : Q;
  nome : jsstring;
  cm : jsstring;
  valor : Q;
  imagem : option jsstring
}.

(** [BudgetItem extends Product]. *)
Record BudgetItem := {
  product : Product;
  quantity : Q;
  total : Q
}.

(** [a === b] on numbers. *)
Definition sameId (a b : Q) : bool := Qeq_bool a b.

(** Lines 42-54. *)
Definition addItem (p : Product) (prev : list BudgetItem) : list BudgetItem :=
  match List.find (fun item => sameId (id (product item)) (id p)) prev with
  | Some existing =>
      List.map
        (fun item =>
           if sameId (id (product item)) (id p)
           then {| product := product item;
                   quantity := quantity item + 1;
                   total := (quantity item + 1) * valor (product item) |}
           else item)
        prev
  | None => prev ++ [ {| product := p; quantity := 1; total := valor p |} ]
  end.

(** Lines 56-58. *)
Definition removeItem (i : Q) (prev : list BudgetItem) : list BudgetItem :=
  List.filter (fun item => negb (sameId (id (product item)) i)) prev.

(** Lines 60-68; [Math.max] is [Qmax]. *)
Definition updateQuantity (i delta : Q) (prev : list BudgetItem)
  : list BudgetItem :=
  List.map
    (fun item =>
       if sameId (id (product item)) i
       then let newQty := Qmax 1 (quantity item + delta) in
            {| product := product item;
               quantity := newQty;
               total := newQty * valor (product item) |}
       else item)
    prev.

(** What the user can do to the cart: the catalogue's add button, the
    plus and minus buttons of a line (lines 307 and 309) and its bin. *)
Inductive action :=
| Add (p : Product)
| Increment (i : Q)
| Decrement (i : Q)
| Remove (i : Q).

Definition step (cart : list BudgetItem) (a : action) : list BudgetItem :=
  match a with
  | Add p => addItem p cart
  | Increment i => updateQuantity i 1 cart
  | Decrement i => updateQuantity i (-1) cart
  | Remove i => removeItem i cart
  end.

(** The cart after a session that started empty (line 20). *)
Definition cartAfter (actions : list action) : list BudgetItem :=
  fold_left step actions [].

(** The item as [generatePDF] receives it (line 79). *)
Definition toEntry (item : BudgetItem) : entry :=
  Object
    (Build_ItemObject
       (Some (Num (id (product item))))
       (JString (nome (product item)))
       (JString (cm (product item)))
       (JNumber (Num (valor (product item))))
       (match imagem (product item) with
        | Some url => JString url
        | None => JUndefined
        end)
       (JNumber (Num (quantity item)))
       (JNumber (Num (total item)))).

(** A number with no fractional part. *)
Definition isInteger (q : Q) : Prop := (inject_Z (Qfloor q) == q)%Q.

(** The invariant of a line of the quote. *)
Definition consistent (item : BudgetItem) : Prop :=
  (total item == quantity item * valor (product item))%Q
  /\ isInteger (quantity item)
  /\ (1 <= quantity item)%Q.

End Cart.

(** ** Reference definitions used by the statements *)

(** The total of a quote as the specification words it: the sum of the
    [total] fields, a field that is absent or not a number counting as
    zero. *)
Definition claimedContribution (v : jsval) : Q :=
  match v with
  | JNumber (Num q) => q
  | _ => 0%Q
  end.

Definition claimedAggregate (valid : list ItemObject) : Q :=
  fold_right (fun item s => (claimedContribution (total item) + s)%Q) 0%Q valid.

(** A [total] that is a number, or that [||] replaces by 0. *)
Definition numericOrFalsy (v : jsval) : bool :=
  match v with
  | JNumber _ => true
  | _ => negb (truthy v)
  end.

(** What the hook asks jsPDF to draw, case by case. *)
Definition hookResult (valid : list ItemObject) (cache : imageCacheT)
  (data : CellHookData) : list op :=
  if isBody (section data) && (columnIndex data =? 0) then
    match arrayGet valid (rowIndex data) with
    | Some item =>
        if idTruthy (id item) then
          match cachedImage cache (toPropertyKey (id item)) with
          | Some base64 =>
              [AddImage base64
                 (cellX data + (cellWidth data - imgSize) / 2)%Q
                 (cellY data + (cellHeight data - imgSize) / 2)%Q
                 imgSize imgSize]
          | None => []
          end
        else []
    | None => []
    end
  else [].

(** Whether jsPDF carries an operation out. *)
Definition drawable (decodes : decoder) (o : op) : bool :=
  match o with
  | AddImage data _ _ _ _ => decodes data
  | _ => true
  end.

(** What the call asks jsPDF to draw in the thumbnail cells. *)
Definition thumbnails (h : host) (valid : list ItemObject)
  (stores : list (time * propertyKey * option jsstring)) : list op :=
  List.flat_map (hookResult valid (storeAll stores))
    (drawnCells (layout h (List.map tableRow valid))).

(** A string that begins with the scheme of an HTTP or HTTPS address. *)
Definition hasSchemePrefix (s : jsstring) : bool :=
  startsWith s (lit "http://") || startsWith s (lit "https://").


(** ** Sample inputs *)

(** An engine that counts a day beyond the end of its month on into the
    next one, and one that refuses it; neither reads anything outside
    the date-time format. *)
Definition rollingEngine : JsDate.engine :=
  {| JsDate.rollsOver := true;
     JsDate.legacy := fun _ _ => JsDate.InvalidDate |}.

Definition strictEngine : JsDate.engine :=
  {| JsDate.rollsOver := false;
     JsDate.legacy := fun _ _ => JsDate.InvalidDate |}.

(** A host whose network never answers, in UTC-3, with an A4 page. *)
Definition quietHost : host :=
  {| net := fun _ => NeverSettles;
     tzOffset := -180;
     now := 1709650800000;
     dateEngine := rollingEngine;
     layout := fun _ => {| drawnCells := []; lastAutoTable := Some 120%Q |};
     pageHeight := 297 |}.

Definition anonymous : ClientInfo :=
  {| name := None; phone := None; date := None |}.

Definition statue (i : Q) (t : jsval) : ItemObject :=
  {| id := Some (Num i);
     nome := JString (lit "Imagem");
     cm := JString (lit "20");
     valor := JNumber (Num 25);
     imagem := JUndefined;
     quantity := JNumber (Num 2);
     total := t |}.

(** The sanitized client name as the specification words it: the
    characters outside [A-Za-z0-9] are removed. *)
Definition claimedCleanName (client : ClientInfo) : jsstring :=
  firstn 30 (List.filter isAlnum (orDefault (name client) (lit "Cliente"))).

(** The client of the specification's example, "João 99% Ltda!". *)
Definition joao : ClientInfo :=
  {| name := Some (lit "Jo" ++ [227%N] ++ lit "o 99% Ltda!");
     phone := None;
     date := Some (lit "2024-03-05") |}.

(** A client whose date field names no day of the calendar. *)
Definition misdated : ClientInfo :=
  {| name := None; phone := None; date := Some (lit "2024-13-45") |}.

(** A client known by a date field only. *)
Definition dated (s : jsstring) : ClientInfo :=
  {| name := None; phone := None; date := Some s |}.

(** The quiet host with an engine that refuses a day its month does not
    have. *)
Definition strictHost : host :=
  {| net := net quietHost;
     tzOffset := tzOffset quietHost;
     now := now quietHost;
     dateEngine := strictEngine;
     layout := layout quietHost;
     pageHeight := pageHeight quietHost |}.

(** A host whose table ends near the bottom of the page. *)
Definition crowdedHost : host :=
  {| net := fun _ => NeverSettles;
     tzOffset := 0;
     now := 0;
     dateEngine := rollingEngine;
     layout := fun _ => {| drawnCells := []; lastAutoTable := Some 260%Q |};
     pageHeight := 297 |}.

(** A network on which every image loads after 100 ms. *)
Definition promptNet : network :=
  fun _ => Loads 100%N (Encoded (lit "image/png;base64,iVBORw0KGgo=")).

(** An item with a picture and the given id. *)
Definition pictured (i : Q) : ItemObject :=
  {| id := Some (Num i);
     nome := JString (lit "Imagem");
     cm := JString (lit "30");
     valor := JNumber (Num 40);
     imagem := JString (lit "https://cdn.example/santo.png");
     quantity := JNumber (Num 1);
     total := JNumber (Num 40) |}.

(** The thumbnail cell of a body row, 22 wide and 22 high. *)
Definition thumbnailCell (row : Z) : CellHookData :=
  {| section := Body; columnIndex := 0; rowIndex := row;
     cellX := 15; cellY := 73; cellWidth := 22; cellHeight := 22 |}.

(** A catalogue entry and a cart holding two of it. *)
Definition saint : Cart.Product :=
  {| Cart.id := 12; Cart.nome := lit "Santo"; Cart.cm := lit "30";
     Cart.valor := 99 # 2; Cart.imagem := None |}.

Definition twoSaints : list Cart.BudgetItem :=
  [ {| Cart.product := saint; Cart.quantity := 2; Cart.total := 99 |} ].

(** ** Further reference definitions *)

(** The object elements of an array, in order. *)
Definition objectsOf (l : list entry) : list ItemObject :=
  List.flat_map
    (fun e => match e with
              | Object it => [it]
              | Primitive _ => []
              end)
    l.

(** A network on which no image ever loads. *)
Definition noImageLoads (n : network) : Prop :=
  forall src t c, n src <> Loads t c.

(** A host on which every image loads, and whose table draws the
    thumbnail cell of its first row. *)
Definition promptHost : host :=
  {| net := promptNet;
     tzOffset := 0;
     now := 0;
     dateEngine := rollingEngine;
     layout := fun _ => {| drawnCells := [thumbnailCell 0];
                           lastAutoTable := Some 120%Q |};
     pageHeight := 297 |}.

(** A network on which every image loads after 100 ms, with a canvas
    that cannot be encoded (it has no area, or more than the browser
    allows): [toDataURL] then gives the string "data:,". *)
Definition blankNet : network := fun _ => Loads 100%N (Encoded (lit ",")).

Definition blankHost : host :=
  {| net := blankNet;
     tzOffset := 0;
     now := 0;
     dateEngine := rollingEngine;
     layout := fun _ => {| drawnCells := [thumbnailCell 0];
                           lastAutoTable := Some 120%Q |};
     pageHeight := 297 |}.

(** A cart holding one figure that has a picture. *)
Definition picturedSaints : list Cart.BudgetItem :=
  [ {| Cart.product :=
         {| Cart.id := 7; Cart.nome := lit "Santo"; Cart.cm := lit "30";
            Cart.valor := 40;
            Cart.imagem := Some (lit "https://cdn.example/santo.png") |};
       Cart.quantity := 1; Cart.total := 40 |} ].

(** A jsPDF that refuses a data URL without a media type. *)
Definition refusesEmptyImage : decoder :=
  fun data => negb (startsWith data (lit "data:,")).

(** The operations that only style, write or draw shapes on the page. *)
Definition isPlainDrawing (o : op) : bool :=
  match o with
  | Alert _ | NewDocument | Request _ | AddImage _ _ _ _ _
  | AutoTable _ _ _ | Save _ => false
  | _ => true
  end.

(** ** The rest of [src/App.tsx] *)

Module App.

Import Cart.

(** Line 70. *)
Definition totalBudget (budgetItems : list BudgetItem) : Q :=
  fold_left (fun acc item => (acc + total item)%Q) budgetItems 0%Q.

(** What the export button shows besides the document: the busy flag,
    the console and alert boxes, and the effects of [generatePDF]. *)
Inductive uiEvent :=
| SetIsExporting (b : bool)
| ConsoleError
| Effect (o : op).

Definition emptyBudgetNotice : jsstring :=
  lit "Adicione pelo menos um item ao or" ++ [231%N] ++ lit "amento.".

Definition exportFailedNotice : jsstring :=
  lit "Erro ao gerar o PDF. Verifique sua conex" ++ [227%N]
  ++ lit "o e os links das imagens.".

(** Lines 72-86.  When the awaited call never settles, neither [catch]
    nor [finally] runs. *)
Definition handleExportPDF (decodes : decoder) (h : host)
  (budgetItems : list BudgetItem) (clientInfo : ClientInfo) : list uiEvent :=
  if Nat.eqb (List.length budgetItems) 0
  then [Effect (Alert emptyBudgetNotice)]
  else
    SetIsExporting true
    :: match generatePDF decodes h (Some (List.map toEntry budgetItems))
               clientInfo with
       | Returned trace => List.map Effect trace ++ [SetIsExporting false]
       | Raised trace e =>
           List.map Effect trace
           ++ [ConsoleError; Effect (Alert exportFailedNotice);
               SetIsExporting false]
       | Stuck trace => List.map Effect trace
       end.

(** [Partial<Product>]: the properties given are the ones replaced. *)
Record ProductUpdates := {
  setId : option Q;
  setNome : option jsstring;
  setCm : option jsstring;
  setValor : option Q;
  setImagem : option (option jsstring)
}.

(** [{ ...p, ...updates }]. *)
Definition spread (p : Product) (updates : ProductUpdates) : Product :=
  {| id := default (id p) (setId updates);
     nome := default (nome p) (setNome updates);
     cm := default (cm p) (setCm updates);
     valor := default (valor p) (setValor updates);
     imagem := default (imagem p) (setImagem updates) |}.

(** Lines 92-94. *)
Definition handleUpdateProduct (i : Q) (updates : ProductUpdates)
  (products : list Product) : list Product :=
  List.map (fun p => if sameId (id p) i then spread p updates else p) products.

(** Lines 96-101; [confirmed] is the answer to the confirm box.  The
    result is the catalogue and the cart. *)
Definition handleDeleteProduct (confirmed : bool) (i : Q)
  (products : list Product) (budgetItems : list BudgetItem)
  : list Product * list BudgetItem :=
  if confirmed
  then (List.filter (fun p => negb (sameId (id p) i)) products,
        List.filter (fun p => negb (sameId (id (product p)) i)) budgetItems)
  else (products, budgetItems).

(** [Math.max(...ids)] for at least one id. *)
Definition mathMax (first : Q) (others : list Q) : Q :=
  fold_left Qmax others first.

(** Lines 103-113.  A number is a binary64 value, and [round] is the
    rounding of the sum to the nearest one; the maximum of numbers and
    the literal 1 need none. *)
Definition handleAddProduct (round : Q -> Q) (products : list Product)
  : list Product :=
  let newId :=
    match products with
    | p :: ps => round (mathMax (id p) (List.map id ps) + 1)%Q
    | [] => 1%Q
    end in
  {| id := newId; nome := lit "Novo Produto"; cm := lit "20";
     valor := 0; imagem := Some [] |} :: products.

(** The integers that binary64 holds without gaps end at 2^53. *)
Definition safeLimit : Q := inject_Z (2 ^ 53).

(** What every rounding to binary64 does: an integer up to 2^53 in
    magnitude is a binary64 value, and is left as it is. *)
Definition exactOnSafeIntegers (round : Q -> Q) : Prop :=
  forall q, isInteger q -> (Qabs q <= safeLimit)%Q -> (round q == q)%Q.

(** The ids a catalogue may hold for [+ 1] to be exact. *)
Definition safeId (q : Q) : Prop :=
  isInteger q /\ (Qabs q < safeLimit)%Q.

(** No two elements carry the same id. *)
Fixpoint distinctIds {A} (idOf : A -> Q) (l : list A) : Prop :=
  match l with
  | [] => True
  | x :: l' =>
      Forall (fun y => sameId (idOf y) (idOf x) = false) l'
      /\ distinctIds idOf l'
  end.

(** Two lines that show the same thing. *)
Definition sameLine (a b : BudgetItem) : Prop :=
  product a = product b
  /\ (quantity a == quantity b)%Q
  /\ (total a == total b)%Q.

End App.

(** A cart with one line of three, and the same product repriced. *)
Definition threeSaints : list Cart.BudgetItem :=
  [ {| Cart.product := saint; Cart.quantity := 3; Cart.total := 297 # 2 |} ].

Definition dearerSaint : Cart.Product :=
  {| Cart.id := 12; Cart.nome := lit "Santo"; Cart.cm := lit "30";
     Cart.valor := 60; Cart.imagem := None |}.

(** The nearest integer, a tie going to the even one. *)
Definition halfEven (q : Q) : Z :=
  let f := Qfloor q in
  match (q - inject_Z f ?= 1 # 2)%Q with
  | Lt => f
  | Gt => (f + 1)%Z
  | Eq => if Z.even f then f else (f + 1)%Z
  end.

(** The binary64 value of an integer up to 2^54 in magnitude: up to
    2^53 it is the integer itself; from there on the binary64 values are
    the even integers, and a tie goes to the one with the even
    mantissa. *)
Definition roundBeyondSafe (q : Q) : Q :=
  if Qle_bool (Qabs q) App.safeLimit then q
  else inject_Z (2 * halfEven (q / 2)).

(** A catalogue whose largest id is 2^53. *)
Definition farSaint : Cart.Product :=
  {| Cart.id := App.safeLimit; Cart.nome := lit "Santo"; Cart.cm := lit "30";
     Cart.valor := 60; Cart.imagem := None |}.

(** The sources requested by a trace, in order. *)
Definition requestsIn (trace : list op) : list jsstring :=
  List.flat_map
    (fun o => match o with
              | Request src => [src]
              | _ => []
              end)
    trace.

(** The image references an export fetches: that of every item that has
    an id and an http reference, in the order of the items, then the
    logo. *)
Definition imageRequests (valid : list ItemObject) : list jsstring :=
  List.flat_map
    (fun item =>
       if wantsImage item && acceptsUrl (imagem item)
       then [toString (imagem item)]
       else [])
    valid
  ++ [logoUrl].

(** ** The client info the application starts with *)

Module Session.

(** The code unit of a decimal digit. *)
Definition digitChar (k : Z) : N := (48 + Z.to_N k)%N.

Definition pad2 (k : Z) : jsstring := [digitChar (k / 10); digitChar (k mod 10)].

Definition pad4 (k : Z) : jsstring :=
  [digitChar (k / 1000); digitChar (k / 100 mod 10);
   digitChar (k / 10 mod 10); digitChar (k mod 10)].

(** The year of the date-time format: four digits from 0 to 9999, a sign
    and six digits outside. *)
Definition isoYear (y : Z) : jsstring :=
  if (0 <=? y) && (y <=? 9999) then pad4 y
  else (if y <? 0 then lit "-" else lit "+")
       ++ pad2 (Z.abs y / 10000) ++ pad4 (Z.abs y mod 10000).

(** [new Date(ms).toISOString().split('T')[0]]: the calendar date in
    UTC. *)
Definition isoDate (ms : Z) : jsstring :=
  let '(y, m, d) := JsDate.civilFromDays (ms / JsDate.msPerDay) in
  isoYear y ++ lit "-" ++ pad2 m ++ lit "-" ++ pad2 d.

(** Lines 23-27 of [src/App.tsx]; [startMs] is the time at which the
    application was opened.  Only the name and the phone have an input
    field (lines 269-282). *)
Definition initialClientInfo (startMs : Z) : ClientInfo :=
  {| name := Some []; phone := Some []; date := Some (isoDate startMs) |}.

Definition setName (s : jsstring) (c : ClientInfo) : ClientInfo :=
  {| name := Some s; phone := phone c; date := date c |}.

Definition setPhone (s : jsstring) (c : ClientInfo) : ClientInfo :=
  {| name := name c; phone := Some s; date := date c |}.

End Session.

(** A host in Brisbane (UTC+10) on which the export runs a day after the
    application was opened. *)
Definition brisbaneHost : host :=
  {| net := fun _ => NeverSettles;
     tzOffset := 600;
     now := 1709737200000;
     dateEngine := rollingEngine;
     layout := fun _ => {| drawnCells := []; lastAutoTable := None |};
     pageHeight := 297 |}.

(** * Properties *)

(** ** The image resolver *)

Section ResolverFacts.

Variable n : network.

Lemma refusesUrl_returns (url : jsval) :
  refusesUrl url = Ret (negb (acceptsUrl url)).
Proof.
  destruct url as [ | | b | k | s ]; try reflexivity.
  - destruct b; reflexivity.
  - unfold refusesUrl. simpl. destruct (numTruthy k); reflexivity.
  - destruct s as [ | c s ]; [ reflexivity | ].
    unfold refusesUrl, acceptsUrl. simpl. reflexivity.
Qed.

Lemma refused_resolution (url : jsval) :
  acceptsUrl url = false ->
  getBase64ImageFromURL n url
  = {| settled := Fulfilled 0%N None; requested := [] |}.
Proof.
  intros H. unfold getBase64ImageFromURL.
  rewrite refusesUrl_returns, H. reflexivity.
Qed.

Lemma accepted_resolution (url : jsval) :
  acceptsUrl url = true ->
  getBase64ImageFromURL n url
  = {| settled :=
         Fulfilled (fst (firstResolve (imageResolve (n (toString url)))))
                   (snd (firstResolve (imageResolve (n (toString url)))));
       requested := [toString url] |}.
Proof.
  intros H. unfold getBase64ImageFromURL.
  rewrite refusesUrl_returns, H. simpl.
  destruct (firstResolve _); reflexivity.
Qed.

Lemma firstResolve_bounded (img : option (time * option jsstring)) :
  (fst (firstResolve img) <= timeoutMs)%N.
Proof.
  unfold firstResolve, timeoutMs.
  destruct img as [ [t v] | ]; simpl; [ | lia ].
  destruct (N.ltb_spec t 5000); simpl; lia.
Qed.

Lemma resolver_fulfils (url : jsval) :
  exists t v,
    settled (getBase64ImageFromURL n url) = Fulfilled t v
    /\ (t <= timeoutMs)%N.
Proof.
  destruct (acceptsUrl url) eqn:H.
  - rewrite (accepted_resolution _ H). simpl.
    eexists _, _. split; [ reflexivity | apply firstResolve_bounded ].
  - rewrite (refused_resolution _ H). simpl.
    exists 0%N, None. split; [ reflexivity | unfold timeoutMs; lia ].
Qed.

End ResolverFacts.

(** C3 as amended.  Whatever value it is given and whatever the network
    does, [getBase64ImageFromURL] returns a promise that is fulfilled
    with a payload string or with null: it is never rejected and never
    left pending.  For a value that is not a string, is the empty string
    or does not start with the four characters [http], the promise is
    fulfilled with null at once and no request is made. *)
Theorem resolver_never_rejects (n : network) (url : jsval) :
  (exists t v, settled (getBase64ImageFromURL n url) = Fulfilled t v)
  /\ ((isString url = false
       \/ url = JString []
       \/ exists s, url = JString s /\ startsWith s (lit "http") = false) ->
      settled (getBase64ImageFromURL n url) = Fulfilled 0%N None
      /\ requested (getBase64ImageFromURL n url) = []).
Proof.
  split.
  - destruct (resolver_fulfils n url) as (t & v & H & _). eauto.
  - intros H.
    assert (acceptsUrl url = false) as Hno.
    { destruct H as [ H | [ -> | (s & -> & H) ] ].
      - destruct url; simpl in *; congruence.
      - reflexivity.
      - unfold acceptsUrl. rewrite H. apply andb_false_r. }
    rewrite (refused_resolution n _ Hno). split; reflexivity.
Qed.

Lemma resolver_never_rejects_witness :
  (exists t v,
     settled (getBase64ImageFromURL (fun _ => NeverSettles)
                (JString (lit "ftp://host/a.png"))) = Fulfilled t v)
  /\ settled (getBase64ImageFromURL (fun _ => NeverSettles)
                (JString (lit "ftp://host/a.png"))) = Fulfilled 0%N None
  /\ requested (getBase64ImageFromURL (fun _ => NeverSettles)
                  (JString (lit "ftp://host/a.png"))) = [].
Proof.
  destruct (resolver_never_rejects (fun _ => NeverSettles)
              (JString (lit "ftp://host/a.png"))) as [H1 H2].
  split; [ exact H1 | ].
  apply H2. right. right. eexists. split; reflexivity.
Defined.


(** C3 as stated fails: the test of line 11 is [startsWith('http')], so
    a string that starts with [http] without starting with [http://] or
    [https://] is not refused.  For "http.png" the source of the image
    is set, the request is made and the promise is fulfilled with what
    the network delivers. *)
Lemma resolver_prefix_counterexample :
  hasSchemePrefix (lit "http.png") = false
  /\ requested (getBase64ImageFromURL promptNet (JString (lit "http.png")))
     = [lit "http.png"]
  /\ settled (getBase64ImageFromURL promptNet (JString (lit "http.png")))
     = Fulfilled 100%N (Some (lit "data:image/png;base64,iVBORw0KGgo="))
  /\ ~ (forall (n : network) (s : jsstring),
          hasSchemePrefix s = false ->
          settled (getBase64ImageFromURL n (JString s)) = Fulfilled 0%N None
          /\ requested (getBase64ImageFromURL n (JString s)) = []).
Proof.
  split; [ reflexivity | ]. split; [ reflexivity | ]. split; [ reflexivity | ].
  intros H.
  destruct (H promptNet (lit "http.png") eq_refl) as [_ Hreq].
  discriminate Hreq.
Qed.

(** C8.  For a URL that passes the test, the timer's [resolve(null)] at
    5000 ms competes with the image's handler and the earlier of the two
    fixes the result: a load that never settles gives null at 5000 ms, a
    handler that runs before 5000 ms gives its own result at its own
    time, a later one is ignored; in every case the promise is settled
    by 5000 ms. *)
Theorem timeout_races_the_load (n : network) (s : jsstring) :
  startsWith s (lit "http") = true ->
  (n s = NeverSettles ->
   settled (getBase64ImageFromURL n (JString s)) = Fulfilled 5000%N None)
  /\ (forall t c, n s = Loads t c ->
      settled (getBase64ImageFromURL n (JString s))
      = if (t <? 5000)%N then Fulfilled t (onload c)
        else Fulfilled 5000%N None)
  /\ (forall t, n s = Fails t ->
      settled (getBase64ImageFromURL n (JString s))
      = Fulfilled (N.min t 5000) None)
  /\ (exists t v,
      settled (getBase64ImageFromURL n (JString s)) = Fulfilled t v
      /\ (t <= 5000)%N).
Proof.
  intros Hhttp.
  assert (acceptsUrl (JString s) = true) as Hok.
  { destruct s; [ discriminate | ]. unfold acceptsUrl. now rewrite Hhttp. }
  rewrite (accepted_resolution n _ Hok). simpl.
  repeat split.
  - intros ->. reflexivity.
  - intros t c ->. simpl. unfold timeoutMs.
    destruct (t <? 5000)%N; reflexivity.
  - intros t ->. simpl. unfold timeoutMs.
    destruct (N.ltb_spec t 5000); simpl; f_equal; lia.
  - eexists _, _. split; [ reflexivity | ].
    apply (firstResolve_bounded (imageResolve (n s))).
Qed.

Lemma timeout_races_the_load_witness :
  settled (getBase64ImageFromURL (fun _ => NeverSettles)
             (JString (lit "https://slow.example/a.png")))
  = Fulfilled 5000%N None.
Proof.
  apply (timeout_races_the_load (fun _ => NeverSettles)
           (lit "https://slow.example/a.png")); reflexivity.
Defined.

(** ** Sanitation and the empty cart *)

Lemma primitive_dropped (v : jsval) : isValidEntry (Primitive v) = false.
Proof. destruct v; simpl; try reflexivity; apply andb_false_r. Qed.

Lemma validItems_primitives (l : list entry) :
  Forall (fun e => exists v, e = Primitive v) l -> validItems (Some l) = [].
Proof.
  unfold validItems. simpl.
  induction 1 as [ | e l (v & ->) _ IH ]; [ reflexivity | ].
  cbn [List.filter]. rewrite primitive_dropped. exact IH.
Qed.

Lemma validItems_object (l1 l2 : list entry) (it : ItemObject) :
  validItems (Some (l1 ++ Object it :: l2)) <> [].
Proof.
  unfold validItems. simpl. rewrite List.filter_app, List.flat_map_app. simpl.
  intros H. apply List.app_eq_nil in H as [_ H]. discriminate.
Qed.

(** C1.  When nothing is left of [items] after the filter, the call
    shows the notice and returns: the whole trace is that one alert, so
    no document is created, no image is requested and nothing is saved.
    jsPDF is not reached, so this holds whatever it accepts. *)
Theorem empty_cart_only_alerts (decodes : decoder) (h : host)
  (items : option (list entry)) (client : ClientInfo) :
  validItems items = [] ->
  generatePDF decodes h items client = Returned [Alert emptyCartNotice]
  /\ ~ In NewDocument (traceOf (generatePDF decodes h items client))
  /\ (forall src,
        ~ In (Request src) (traceOf (generatePDF decodes h items client)))
  /\ (forall f, ~ In (Save f) (traceOf (generatePDF decodes h items client))).
Proof.
  intros Hempty.
  assert (generatePDF decodes h items client = Returned [Alert emptyCartNotice])
    as E.
  { unfold generatePDF. rewrite Hempty. reflexivity. }
  rewrite E. simpl. repeat split.
  - intros [ H | [] ]. discriminate.
  - intros src [ H | [] ]. discriminate.
  - intros f [ H | [] ]. discriminate.
Qed.

Lemma empty_cart_only_alerts_witness :
  generatePDF (fun _ => false)
    {| net := fun _ => NeverSettles; tzOffset := 0; now := 0;
       dateEngine := rollingEngine;
       layout := fun _ => {| drawnCells := []; lastAutoTable := None |};
       pageHeight := 297 |}
    (Some [Primitive JNull; Primitive (JString (lit "x")); Primitive JUndefined])
    {| name := None; phone := None; date := None |}
  = Returned [Alert emptyCartNotice].
Proof.
  apply empty_cart_only_alerts. reflexivity.
Defined.

(** ** How the call ends *)

Lemma joinAll_settles (n : network) (valid : list ItemObject) :
  exists stores, joinAll (startResolutions n valid) = AllSettled stores.
Proof.
  unfold startResolutions.
  induction valid as [ | item valid (stores & IH) ]; [ now exists [] | ].
  simpl. destruct (wantsImage item); simpl; [ | eauto ].
  destruct (resolver_fulfils n (imagem item)) as (t & v & -> & _).
  rewrite IH. eauto.
Qed.

(** The hook asks for what [hookResult] lists; it returns when jsPDF
    carries that out and raises otherwise. *)
Lemma didDrawCell_outcome (decodes : decoder) (valid : list ItemObject)
  (cache : imageCacheT) (data : CellHookData) :
  didDrawCell decodes valid cache data
  = if forallb (drawable decodes) (hookResult valid cache data)
    then Ret (hookResult valid cache data)
    else Throw undecodable.
Proof.
  unfold didDrawCell, hookResult.
  destruct (isBody (section data) && (columnIndex data =? 0)); [ | reflexivity ].
  destruct (arrayGet valid (rowIndex data)) as [ item | ]; simpl.
  - destruct (idTruthy (id item)); simpl; [ | reflexivity ].
    destruct (cachedImage cache (toPropertyKey (id item))); [ | reflexivity ].
    unfold addImage. simpl. destruct (decodes _); reflexivity.
  - reflexivity.
Qed.

Lemma drawable_acceptsAll (l : list op) : forallb (drawable acceptsAll) l = true.
Proof.
  induction l as [ | o l IH ]; [ reflexivity | ].
  simpl. rewrite IH. destruct o; reflexivity.
Qed.

Lemma didDrawCell_returns (valid : list ItemObject) (cache : imageCacheT)
  (data : CellHookData) :
  didDrawCell acceptsAll valid cache data = Ret (hookResult valid cache data).
Proof. now rewrite didDrawCell_outcome, drawable_acceptsAll. Qed.

(** The cells are drawn until jsPDF refuses a payload. *)
Lemma drawCells_outcome (decodes : decoder) (valid : list ItemObject)
  (cache : imageCacheT) (cells : list CellHookData) :
  let asked := List.flat_map (hookResult valid cache) cells in
  if forallb (drawable decodes) asked
  then drawCells (didDrawCell decodes valid cache) cells = (asked, None)
  else exists drawn rest data x y w hh,
         drawCells (didDrawCell decodes valid cache) cells
         = (drawn, Some undecodable)
         /\ asked = drawn ++ AddImage data x y w hh :: rest
         /\ forallb (drawable decodes) drawn = true
         /\ decodes data = false.
Proof.
  induction cells as [ | c cells IH ]; [ reflexivity | ].
  cbn [List.flat_map drawCells]. cbv zeta in IH |- *.
  rewrite forallb_app, didDrawCell_outcome.
  destruct (forallb (drawable decodes) (hookResult valid cache c)) eqn:Hc.
  - cbn [andb].
    destruct (forallb (drawable decodes)
                (List.flat_map (hookResult valid cache) cells)).
    + rewrite IH. reflexivity.
    + destruct IH as (drawn & rest & data & x & y & w & hh & -> & E & Hd & Hr).
      exists (hookResult valid cache c ++ drawn), rest, data, x, y, w, hh.
      repeat split.
      * rewrite E, <- List.app_assoc. reflexivity.
      * rewrite forallb_app, Hc, Hd. reflexivity.
      * exact Hr.
  - cbn [andb].
    assert (exists data x y w hh,
              hookResult valid cache c = [AddImage data x y w hh]
              /\ decodes data = false) as (data & x & y & w & hh & E & Hr).
    { revert Hc. unfold hookResult.
      destruct (isBody (section c) && (columnIndex c =? 0)); [ | discriminate ].
      destruct (arrayGet valid (rowIndex c)) as [ item | ]; [ | discriminate ].
      destruct (idTruthy (id item)); [ | discriminate ].
      destruct (cachedImage cache (toPropertyKey (id item))) as [ img | ];
        [ | discriminate ].
      simpl. destruct (decodes img) eqn:Hr; [ discriminate | ].
      intros _. eauto 10. }
    exists [], (List.flat_map (hookResult valid cache) cells), data, x, y, w, hh.
    repeat split; [ | exact Hr ].
    rewrite E. reflexivity.
Qed.

Lemma drawCells_returns (valid : list ItemObject) (cache : imageCacheT)
  (cells : list CellHookData) :
  drawCells (didDrawCell acceptsAll valid cache) cells
  = (List.flat_map (hookResult valid cache) cells, None).
Proof.
  pose proof (drawCells_outcome acceptsAll valid cache cells) as H.
  cbv zeta in H. rewrite drawable_acceptsAll in H. exact H.
Qed.

(** With at least one valid item the images are resolved, the header and
    the table are drawn, and then either every thumbnail is drawn and
    the call runs to its end, or jsPDF refuses a thumbnail and the call
    raises there. *)
Lemma generatePDF_outcome (decodes : decoder) (h : host)
  (items : option (list entry)) (client : ClientInfo) :
  validItems items <> [] ->
  exists stores fetched v,
    joinAll (startResolutions (net h) (validItems items)) = AllSettled stores
    /\ fetched
       = requestsOf (startResolutions (net h) (validItems items))
         ++ List.map Request (requested (getBase64ImageFromURL (net h)
                                           (JString logoUrl)))
         ++ logoOps decodes v
    /\ (exists t,
          settled (getBase64ImageFromURL (net h) (JString logoUrl))
          = Fulfilled t v)
    /\ if forallb (drawable decodes) (thumbnails h (validItems items) stores)
       then generatePDF decodes h items client
            = Returned
                ((NewDocument :: fetched)
                 ++ headerOps h client
                 ++ [AutoTable 65 tableHead
                       (List.map tableRow (validItems items))]
                 ++ thumbnails h (validItems items) stores
                 ++ footerOps (layout h (List.map tableRow (validItems items)))
                      (pageHeight h) (totalPrice (validItems items))
                 ++ [Save (fileName client)])
       else exists drawn rest data x y w hh,
              generatePDF decodes h items client
              = Raised
                  ((NewDocument :: fetched)
                   ++ headerOps h client
                   ++ [AutoTable 65 tableHead
                         (List.map tableRow (validItems items))]
                   ++ drawn)
                  undecodable
              /\ thumbnails h (validItems items) stores
                 = drawn ++ AddImage data x y w hh :: rest
              /\ forallb (drawable decodes) drawn = true
              /\ decodes data = false.
Proof.
  intros Hne. unfold generatePDF, thumbnails.
  destruct (validItems items) as [ | item valid ] eqn:Hv; [ congruence | ].
  cbn [List.length Nat.eqb].
  destruct (joinAll_settles (net h) (item :: valid)) as (stores & Hj).
  rewrite Hj.
  destruct (resolver_fulfils (net h) (JString logoUrl)) as (t & v & Hl & _).
  rewrite Hl.
  eexists stores, _, v.
  split; [ reflexivity | ]. split; [ reflexivity | ]. split; [ eauto | ].
  pose proof (drawCells_outcome decodes (item :: valid) (storeAll stores)
                (drawnCells (layout h (List.map tableRow (item :: valid)))))
    as Hd.
  cbv zeta in Hd.
  destruct (forallb (drawable decodes) _).
  - rewrite Hd. f_equal. simpl. rewrite <- !List.app_assoc. reflexivity.
  - destruct Hd as (drawn & rest & data & x & y & w & hh & -> & E & Hd & Hr).
    exists drawn, rest, data, x, y, w, hh.
    repeat split; try assumption.
    f_equal. simpl. rewrite <- !List.app_assoc. reflexivity.
Qed.

(** On a jsPDF that accepts every payload the call runs to its end, and
    its trace has this shape. *)
Lemma generatePDF_returns (h : host) (items : option (list entry))
  (client : ClientInfo) :
  validItems items <> [] ->
  exists stores fetched,
    joinAll (startResolutions (net h) (validItems items)) = AllSettled stores
    /\ generatePDF acceptsAll h items client
       = Returned
           ((NewDocument :: fetched)
            ++ headerOps h client
            ++ [AutoTable 65 tableHead (List.map tableRow (validItems items))]
            ++ List.flat_map
                 (hookResult (validItems items) (storeAll stores))
                 (drawnCells (layout h (List.map tableRow (validItems items))))
            ++ footerOps (layout h (List.map tableRow (validItems items)))
                 (pageHeight h) (totalPrice (validItems items))
            ++ [Save (fileName client)]).
Proof.
  intros Hne.
  destruct (generatePDF_outcome acceptsAll h items client Hne)
    as (stores & fetched & v & Hj & _ & _ & H).
  rewrite drawable_acceptsAll in H. eauto.
Qed.

(** A call that runs to its end has drawn every thumbnail it asked
    for, then the footer, and saved. *)
Lemma generatePDF_returned (decodes : decoder) (h : host)
  (items : option (list entry)) (client : ClientInfo) (trace : list op) :
  validItems items <> [] ->
  generatePDF decodes h items client = Returned trace ->
  exists stores t v,
    joinAll (startResolutions (net h) (validItems items)) = AllSettled stores
    /\ settled (getBase64ImageFromURL (net h) (JString logoUrl))
       = Fulfilled t v
    /\ forallb (drawable decodes) (thumbnails h (validItems items) stores)
       = true
    /\ trace
       = (NewDocument
          :: requestsOf (startResolutions (net h) (validItems items))
             ++ List.map Request
                  (requested (getBase64ImageFromURL (net h) (JString logoUrl)))
             ++ logoOps decodes v)
         ++ headerOps h client
         ++ [AutoTable 65 tableHead (List.map tableRow (validItems items))]
         ++ thumbnails h (validItems items) stores
         ++ footerOps (layout h (List.map tableRow (validItems items)))
              (pageHeight h) (totalPrice (validItems items))
         ++ [Save (fileName client)].
Proof.
  intros Hne Hret.
  destruct (generatePDF_outcome decodes h items client Hne)
    as (stores & fetched & v & Hj & -> & (t & Hl) & H).
  exists stores, t, v.
  destruct (forallb (drawable decodes) _).
  - rewrite H in Hret. injection Hret as <-. auto.
  - destruct H as (drawn & rest & data & x & y & w & hh & H & _).
    rewrite H in Hret. discriminate.
Qed.

(** ** The aggregate total *)

Lemma numericOrFalsy_step (q0 : Q) (v : jsval) :
  numericOrFalsy v = true ->
  exists q, add (JNumber (Num q0)) (or_else v zero) = JNumber (Num q)
            /\ (q == q0 + claimedContribution v)%Q.
Proof.
  intros Hv. unfold or_else.
  destruct v as [ | | [] | [ x | ] | s ]; simpl in *; try discriminate;
    try (exists (q0 + 0)%Q; split; [ reflexivity | reflexivity ]).
  - destruct (Qeq_bool x 0) eqn:E; simpl.
    + exists (q0 + 0)%Q. split; [ reflexivity | ].
      apply Qeq_bool_eq in E. rewrite E. reflexivity.
    + exists (q0 + x)%Q. split; reflexivity.
  - destruct s; simpl in *; [ | discriminate ].
    exists (q0 + 0)%Q. split; reflexivity.
Qed.

Lemma totalPrice_from (valid : list ItemObject) (q0 : Q) :
  Forall (fun item => numericOrFalsy (total item) = true) valid ->
  exists q,
    fold_left (fun sum item => add sum (or_else (total item) zero)) valid
      (JNumber (Num q0)) = JNumber (Num q)
    /\ (q == q0 + claimedAggregate valid)%Q.
Proof.
  intros H. revert q0.
  induction H as [ | item valid Hi _ IH ]; intros q0; simpl.
  - exists q0. split; [ reflexivity | ring ].
  - destruct (numericOrFalsy_step q0 _ Hi) as (q1 & -> & E1).
    destruct (IH q1) as (q & -> & E).
    exists q. split; [ reflexivity | ]. rewrite E, E1. ring.
Qed.

Lemma total_is_rendered (decodes : decoder) (h : host)
  (items : option (list entry)) (client : ClientInfo) (trace : list op) :
  validItems items <> [] ->
  generatePDF decodes h items client = Returned trace ->
  In (Text (Currency (totalPrice (validItems items))) 190
        (footerY (layout h (List.map tableRow (validItems items)))
           (pageHeight h) + 9)%Q
        AlignRight)
     trace.
Proof.
  intros Hne Hret.
  destruct (generatePDF_returned decodes h items client trace Hne Hret)
    as (stores & t & v & _ & _ & _ & ->).
  do 4 (apply List.in_or_app; right). apply List.in_or_app. left.
  unfold footerOps. apply List.in_or_app. right. simpl. tauto.
Qed.

(** C2 as amended.  For a list with at least one valid item in which
    every [total] is a number or a falsy value (absent, null, NaN, 0,
    false, the empty string), the value shown in the summary box is the
    number obtained by summing the numeric totals, the falsy ones
    counting as zero: a jsPDF that accepts every payload draws it, and
    so does every call that runs to its end, whatever jsPDF accepts. *)
Theorem aggregate_total_is_sum (h : host) (items : option (list entry))
  (client : ClientInfo) :
  validItems items <> [] ->
  Forall (fun item => numericOrFalsy (total item) = true) (validItems items) ->
  exists q trace,
    (q == claimedAggregate (validItems items))%Q
    /\ totalPrice (validItems items) = JNumber (Num q)
    /\ generatePDF acceptsAll h items client = Returned trace
    /\ In (Text (Currency (JNumber (Num q))) 190
             (footerY (layout h (List.map tableRow (validItems items)))
                (pageHeight h) + 9)%Q
             AlignRight)
          trace
    /\ (forall decodes trace',
          generatePDF decodes h items client = Returned trace' ->
          In (Text (Currency (JNumber (Num q))) 190
                (footerY (layout h (List.map tableRow (validItems items)))
                   (pageHeight h) + 9)%Q
                AlignRight)
             trace').
Proof.
  intros Hne Hnum.
  destruct (totalPrice_from _ 0 Hnum) as (q & Hq & E).
  destruct (generatePDF_returns h items client Hne)
    as (stores & fetched & _ & Hret).
  assert (totalPrice (validItems items) = JNumber (Num q)) as Htotal
      by exact Hq.
  eexists q, _. split; [ | split; [ | split; [ | split ] ] ].
  - rewrite E. ring.
  - exact Htotal.
  - exact Hret.
  - rewrite <- Htotal. eapply total_is_rendered; eassumption.
  - intros decodes trace' Hret'. rewrite <- Htotal.
    eapply total_is_rendered; eassumption.
Qed.

Lemma aggregate_total_is_sum_witness :
  exists q trace,
    (q == 50)%Q
    /\ totalPrice
         [statue 1 (JNumber (Num 50)); statue 2 JUndefined;
          statue 3 (JNumber NaN)] = JNumber (Num q)
    /\ generatePDF acceptsAll quietHost
         (Some [Object (statue 1 (JNumber (Num 50)));
                Object (statue 2 JUndefined);
                Object (statue 3 (JNumber NaN))]) anonymous
       = Returned trace
    /\ In (Text (Currency (JNumber (Num q))) 190 (120 + 10 + 9)%Q AlignRight)
          trace.
Proof.
  destruct (aggregate_total_is_sum quietHost
              (Some [Object (statue 1 (JNumber (Num 50)));
                     Object (statue 2 JUndefined);
                     Object (statue 3 (JNumber NaN))]) anonymous)
    as (q & trace & H1 & H2 & H3 & H4 & _).
  - discriminate.
  - repeat constructor.
  - exists q, trace. repeat split; assumption.
Defined.

(** C2 as stated fails: a [total] that is the string "abc" is not a
    number, yet it does not count as zero; [0 + "abc"] is the string
    "0abc", and that is what reaches the summary box. *)
Lemma aggregate_total_counterexample :
  validItems (Some [Object (statue 1 (JString (lit "abc")))]) <> []
  /\ (claimedAggregate
        (validItems (Some [Object (statue 1 (JString (lit "abc")))])) == 0)%Q
  /\ totalPrice (validItems (Some [Object (statue 1 (JString (lit "abc")))]))
     = JString (lit "0abc")
  /\ In (Text (Currency (JString (lit "0abc"))) 190 (120 + 10 + 9)%Q AlignRight)
        (traceOf (generatePDF acceptsAll quietHost
                    (Some [Object (statue 1 (JString (lit "abc")))])
                    anonymous))
  /\ ~ (exists q trace,
          (q == claimedAggregate
                  (validItems (Some [Object (statue 1 (JString (lit "abc")))])))%Q
          /\ generatePDF acceptsAll quietHost
               (Some [Object (statue 1 (JString (lit "abc")))]) anonymous
             = Returned trace
          /\ In (Text (Currency (JNumber (Num q))) 190 (120 + 10 + 9)%Q
                   AlignRight) trace).
Proof.
  split; [ discriminate | ].
  split; [ reflexivity | ].
  split; [ reflexivity | ].
  split.
  - cbv [generatePDF]. simpl. repeat (try (left; reflexivity); right).
  - intros (q & trace & _ & Hret & Hin).
    cbv [generatePDF] in Hret. simpl in Hret.
    injection Hret as <-.
    repeat (destruct Hin as [ Hin | Hin ]; [ discriminate Hin | ]).
    exact Hin.
Qed.

(** ** The file name *)

Lemma substituted_ok (l : jsstring) :
  Forall (fun c => isAlnum c = true \/ c = underscore)
    (List.map (fun c => if isAlnum c then c else underscore) l).
Proof.
  induction l as [ | c l IH ]; constructor; [ | exact IH ].
  destruct (isAlnum c) eqn:E; [ left; exact E | right; reflexivity ].
Qed.

(** C4 as amended.  The file name is the prefix [Orcamento_], the
    sanitized client name and [.pdf]; the sanitized name keeps the first
    30 code units of the name (of [Cliente] when the name is absent or
    empty), each unit outside [A-Za-z0-9] being replaced by an
    underscore, position by position; nothing is removed. *)
Theorem file_name_substitutes (client : ClientInfo) :
  fileName client = lit "Orcamento_" ++ cleanClientName client ++ lit ".pdf"
  /\ List.length (cleanClientName client)
     = Nat.min 30 (List.length (orDefault (name client) (lit "Cliente")))
  /\ (forall i c,
        (i < 30)%nat ->
        nth_error (orDefault (name client) (lit "Cliente")) i = Some c ->
        nth_error (cleanClientName client) i
        = Some (if isAlnum c then c else underscore))
  /\ Forall (fun c => isAlnum c = true \/ c = underscore)
       (cleanClientName client).
Proof.
  unfold cleanClientName. repeat split.
  - rewrite List.length_firstn, List.length_map. reflexivity.
  - intros i c Hi Hc.
    rewrite List.nth_error_firstn.
    destruct (Nat.ltb_spec i 30); [ | lia ].
    rewrite List.nth_error_map, Hc. reflexivity.
  - apply Forall_take, substituted_ok.
Qed.

Lemma file_name_substitutes_witness :
  nth_error (cleanClientName joao) 2 = Some underscore.
Proof.
  destruct (file_name_substitutes joao) as (_ & _ & H & _).
  apply (H 2%nat 227%N); [ lia | reflexivity ].
Defined.

Lemma file_name_of_joao :
  fileName joao = lit "Orcamento_Jo_o_99__Ltda_.pdf".
Proof. reflexivity. Qed.

(** C4 as stated fails: for "João 99% Ltda!" removal would give
    [Joo99Ltda], while the code gives [Jo_o_99__Ltda_], of the same
    length as the name. *)
Lemma file_name_counterexample :
  claimedCleanName joao = lit "Joo99Ltda"
  /\ cleanClientName joao = lit "Jo_o_99__Ltda_"
  /\ cleanClientName joao <> claimedCleanName joao
  /\ fileName joao <> lit "Orcamento_" ++ claimedCleanName joao ++ lit ".pdf".
Proof.
  repeat split; try reflexivity; discriminate.
Qed.

(** ** The issue date *)

Section Calendar.

Import JsDate.

Lemma year_of_era (yoe doy : Z) :
  0 <= yoe < 400 -> 0 <= doy <= 365 ->
  (doy = 365 ->
   ((yoe + 1) mod 4 = 0 /\ (yoe + 1) mod 100 <> 0) \/ (yoe + 1) mod 400 = 0) ->
  let doe := yoe * 365 + yoe / 4 - yoe / 100 + doy in
  (doe - doe / 1460 + doe / 36524 - doe / 146096) / 365 = yoe
  /\ 0 <= doe < 146097.
Proof.
  intros Hy Hd Hl doe. subst doe.
  Z.div_mod_to_equations; lia.
Qed.

Lemma isLeap_true (y : Z) :
  isLeap y = true -> (y mod 4 = 0 /\ y mod 100 <> 0) \/ y mod 400 = 0.
Proof.
  unfold isLeap. intros H. apply orb_true_iff in H as [H | H].
  - apply andb_true_iff in H as [H1 H2]. apply negb_true_iff in H2.
    left. split; lia.
  - right. lia.
Qed.

Lemma month_of_doy (mp d : Z) :
  0 <= mp <= 11 -> 1 <= d <= 31 ->
  d <= (153 * (mp + 1) + 2) / 5 - (153 * mp + 2) / 5 ->
  (5 * ((153 * mp + 2) / 5 + d - 1) + 2) / 153 = mp.
Proof.
  intros Hm Hd Hle.
  Z.div_mod_to_equations; lia.
Qed.

Lemma daysInMonth_cases (y m : Z) :
  1 <= m <= 12 ->
  (m = 2 /\ 28 <= daysInMonth y m <= 29)
  \/ ((m = 4 \/ m = 6 \/ m = 9 \/ m = 11) /\ daysInMonth y m = 30)
  \/ ((m = 1 \/ m = 3 \/ m = 5 \/ m = 7 \/ m = 8 \/ m = 10 \/ m = 12)
      /\ daysInMonth y m = 31).
Proof.
  intros Hm. unfold daysInMonth.
  destruct (Z.eqb_spec m 2) as [ -> | H2 ].
  - left. destruct (isLeap y); lia.
  - destruct (Z.eqb_spec m 4), (Z.eqb_spec m 6), (Z.eqb_spec m 9),
      (Z.eqb_spec m 11); simpl; lia.
Qed.

(** The day number of a calendar date is the day number of that date. *)
Lemma civil_roundtrip (y m d : Z) :
  1 <= m <= 12 -> 1 <= d <= daysInMonth y m ->
  civilFromDays (daysFromCivil y m d) = (y, m, d).
Proof.
  intros Hm Hd.
  set (y' := if m <=? 2 then y - 1 else y).
  set (era := y' / 400).
  set (yoe := y' - era * 400).
  set (mp := (m + 9) mod 12).
  set (doy := (153 * mp + 2) / 5 + d - 1).
  assert (0 <= yoe < 400) as Hyoe
      by (subst yoe era; Z.div_mod_to_equations; lia).
  assert (0 <= mp <= 11) as Hmp by (subst mp; Z.div_mod_to_equations; lia).
  assert (m = if mp <? 10 then mp + 3 else mp - 9) as Hmm.
  { subst mp.
    destruct (Z.ltb_spec ((m + 9) mod 12) 10); Z.div_mod_to_equations; lia. }
  assert (1 <= d <= 31
          /\ d <= (153 * (mp + 1) + 2) / 5 - (153 * mp + 2) / 5
          /\ 0 <= doy <= 365
          /\ (doy = 365 -> m = 2 /\ d = 29)) as (Hd31 & Hlen & Hdoy & Hleap).
  { pose proof (daysInMonth_cases y m Hm) as Hc.
    subst doy mp. clear Hmm Hmp.
    Z.div_mod_to_equations. lia. }
  assert (doy = 365 ->
          ((yoe + 1) mod 4 = 0 /\ (yoe + 1) mod 100 <> 0)
          \/ (yoe + 1) mod 400 = 0) as Hl.
  { intros H365. destruct (Hleap H365) as [E2 E29].
    assert (isLeap y = true) as Hly.
    { unfold daysInMonth in Hd. rewrite E2 in Hd.
      change (2 =? 2) with true in Hd. cbv iota in Hd.
      destruct (isLeap y); [ reflexivity | lia ]. }
    apply isLeap_true in Hly. subst yoe era y'. rewrite E2.
    change (2 <=? 2) with true. cbv iota.
    Z.div_mod_to_equations; lia. }
  destruct (year_of_era yoe doy Hyoe Hdoy Hl) as [Hy1 Hdoe].
  pose proof (month_of_doy mp d Hmp Hd31 Hlen) as Hmp'.
  cbv zeta in Hy1, Hdoe. fold doy in Hmp'.
  unfold civilFromDays, daysFromCivil. cbv zeta.
  fold y' era yoe mp doy.
  set (doe := yoe * 365 + yoe / 4 - yoe / 100 + doy) in *.
  replace (era * 146097 + doe - 719468 + 719468)
    with (doe + era * 146097) by ring.
  rewrite Z.div_add by lia. rewrite (Z.div_small doe) by lia.
  replace (doe + era * 146097 - (0 + era) * 146097) with doe by ring.
  rewrite Hy1.
  replace (doe - (365 * yoe + yoe / 4 - yoe / 100)) with doy
    by (subst doe; ring).
  rewrite Hmp'. rewrite <- Hmm.
  f_equal; [ f_equal | ].
  - subst yoe y'. destruct (m <=? 2); ring.
  - subst doy. ring.
Qed.

Lemma validFields_date (y m d h mi s : Z) :
  validFields y m d h mi s = true -> 1 <= m <= 12 /\ 1 <= d <= 31.
Proof.
  unfold validFields. intros H.
  repeat (apply andb_true_iff in H as [H ?]). lia.
Qed.

Lemma validFields_midday (y m d : Z) :
  1 <= m <= 12 -> 1 <= d <= 31 -> validFields y m d 12 0 0 = true.
Proof.
  intros Hm Hd. unfold validFields.
  destruct (Z.leb_spec 1 m); [ | lia ].
  destruct (Z.leb_spec m 12); [ | lia ].
  destruct (Z.leb_spec 1 d); [ | lia ].
  destruct (Z.leb_spec d 31); [ | lia ].
  reflexivity.
Qed.

Lemma invalidFields_midday (y m d : Z) :
  m < 1 \/ 12 < m \/ d < 1 \/ 31 < d -> validFields y m d 12 0 0 = false.
Proof.
  intros H. apply not_true_iff_false. intros Hv.
  apply validFields_date in Hv. lia.
Qed.

(** A string followed by [T12:00:00] is split where it should. *)
Lemma parseLocal_midday (e : engine) (tz : Z) (s : jsstring) :
  parseLocal e tz (s ++ lit "T12:00:00")
  = match parseCalendar s with
    | Some (y, m, d) =>
        if validFields y m d 12 0 0 && (inCalendar y m d || rollsOver e)
        then TimeValue (daysFromCivil y m d * msPerDay + 43200000 - tz * 60000)
        else InvalidDate
    | None => legacy e tz (s ++ lit "T12:00:00")
    end.
Proof.
  unfold parseLocal.
  replace (List.length (s ++ lit "T12:00:00") - 9)%nat with (List.length s)
    by (rewrite List.length_app; simpl; lia).
  rewrite take_app_length, drop_app_length.
  destruct (parseCalendar s) as [ [[y m] d] | ]; reflexivity.
Qed.

(** Midday local time falls on the same local day in every zone. *)
Lemma midday_same_day (tz days : Z) :
  toLocaleDateString tz (TimeValue (days * msPerDay + 43200000 - tz * 60000))
  = shortDate (civilFromDays days).
Proof.
  unfold toLocaleDateString, msPerDay. do 2 f_equal.
  Z.div_mod_to_equations; lia.
Qed.

Lemma parseCalendar_nonempty (s : jsstring) (ymd : Z * Z * Z) :
  parseCalendar s = Some ymd -> isEmptyString s = false.
Proof. destruct s; [ discriminate | reflexivity ]. Qed.

End Calendar.

(** The text for a date field in the format, by its fields. *)
Lemma dateStr_of_fields (h : host) (client : ClientInfo) (s : jsstring)
  (y m d : Z) :
  date client = Some s -> JsDate.parseCalendar s = Some (y, m, d) ->
  dateStr h client
  = if JsDate.validFields y m d 12 0 0
       && (JsDate.inCalendar y m d || JsDate.rollsOver (dateEngine h))
    then JsDate.shortDate (JsDate.civilFromDays (JsDate.daysFromCivil y m d))
    else lit "Invalid Date".
Proof.
  intros Hs Hp. unfold dateStr, present. rewrite Hs.
  rewrite (parseCalendar_nonempty _ _ Hp). cbn [negb].
  change (default [] (Some s)) with s.
  rewrite parseLocal_midday, Hp.
  destruct (JsDate.validFields y m d 12 0 0
            && (JsDate.inCalendar y m d || JsDate.rollsOver (dateEngine h)));
    [ apply midday_same_day | reflexivity ].
Qed.





(** ** The footer *)

Lemma footerOverflows_iff (run : tableRun) (pageH : Q) :
  footerOverflows run pageH = true <-> (pageH < finalY run + 10 + 40)%Q.
Proof.
  unfold footerOverflows, gt. rewrite negb_true_iff.
  rewrite <- not_true_iff_false, Qle_bool_iff. split.
  - apply Qnot_le_lt.
  - apply Qlt_not_le.
Qed.

Lemma footerBody_no_page (y : Q) (t : jsval) : ~ In AddPage (footerBody y t).
Proof.
  unfold footerBody. intros H.
  repeat (destruct H as [ H | H ]; [ discriminate H | ]). exact H.
Qed.

(** C7.  The position below the table is [finalY + 10] and the footer
    needs 40 more.  When that exceeds the page height, a page is added
    and the footer is drawn from y = 20 on it; otherwise no page is added
    and the footer is drawn from [finalY + 10].  The footer drawn from
    [y] is the summary box at [y], its label and the total at [y + 9],
    and the two notes at [y + 30] and [y + 34].  Nothing else happens
    between the table's cells and the save; this is so on a jsPDF that
    accepts every payload, and in every call that runs to its end. *)
Theorem footer_pagination (h : host) (items : option (list entry))
  (client : ClientInfo) :
  validItems items <> [] ->
  let below := (finalY (layout h (List.map tableRow (validItems items))) + 10)%Q in
  let drawnFrom := fun y : Q =>
    [ SetFillColor 248 250 252; RoundedRect 130 y 65 15 2 2;
      SetFontSize 10; SetFont "helvetica" "bold"; SetTextColor 71 85 105;
      Text (Literal (lit "VALOR TOTAL:")) 135 (y + 9)%Q AlignLeft;
      SetFontSize 14; SetTextColor 79 70 229;
      Text (Currency (totalPrice (validItems items))) 190 (y + 9)%Q AlignRight;
      SetFontSize 8; SetTextColor 148 163 184; SetFont "helvetica" "italic";
      Text (Literal tagline) 105 (y + 30)%Q AlignCenter;
      Text (Literal validityNote) 105 (y + 34)%Q AlignCenter ] in
  exists footer,
    (exists before,
       generatePDF acceptsAll h items client
       = Returned (before ++ footer ++ [Save (fileName client)]))
    /\ (forall decodes trace,
          generatePDF decodes h items client = Returned trace ->
          exists before, trace = before ++ footer ++ [Save (fileName client)])
    /\ footer
       = footerOps (layout h (List.map tableRow (validItems items)))
           (pageHeight h) (totalPrice (validItems items))
    /\ ((pageHeight h < below + 40)%Q -> footer = AddPage :: drawnFrom 20%Q)
    /\ ((below + 40 <= pageHeight h)%Q ->
        footer = drawnFrom below /\ ~ In AddPage footer).
Proof.
  intros Hne below drawnFrom.
  set (run := layout h (List.map tableRow (validItems items))).
  exists (footerOps run (pageHeight h) (totalPrice (validItems items))).
  split; [ | split; [ | split; [ reflexivity | split ] ] ].
  - destruct (generatePDF_returns h items client Hne)
      as (stores & fetched & _ & ->).
    eexists. rewrite !List.app_assoc. reflexivity.
  - intros decodes trace Hret.
    destruct (generatePDF_returned decodes h items client trace Hne Hret)
      as (stores & t & v & _ & _ & _ & ->).
    eexists. rewrite !List.app_assoc. reflexivity.
  - intros Hover. subst below. apply footerOverflows_iff in Hover.
    unfold footerOps, footerY. fold run in Hover. rewrite Hover. reflexivity.
  - intros Hfits. subst below.
    assert (footerOverflows run (pageHeight h) = false) as Hno.
    { apply not_true_iff_false. rewrite footerOverflows_iff.
      apply Qle_not_lt, Hfits. }
    unfold footerOps, footerY. rewrite Hno. simpl app.
    split; [ reflexivity | apply footerBody_no_page ].
Qed.

Lemma footer_pagination_witness :
  footerOps {| drawnCells := []; lastAutoTable := Some 260%Q |} 297
    (JNumber (Num 50))
  = [ AddPage;
      SetFillColor 248 250 252; RoundedRect 130 20 65 15 2 2;
      SetFontSize 10; SetFont "helvetica" "bold"; SetTextColor 71 85 105;
      Text (Literal (lit "VALOR TOTAL:")) 135 (20 + 9)%Q AlignLeft;
      SetFontSize 14; SetTextColor 79 70 229;
      Text (Currency (JNumber (Num 50))) 190 (20 + 9)%Q AlignRight;
      SetFontSize 8; SetTextColor 148 163 184; SetFont "helvetica" "italic";
      Text (Literal tagline) 105 (20 + 30)%Q AlignCenter;
      Text (Literal validityNote) 105 (20 + 34)%Q AlignCenter ]
  /\ footerOps {| drawnCells := []; lastAutoTable := Some 120%Q |} 297
       (JNumber (Num 50))
     = [ SetFillColor 248 250 252; RoundedRect 130 (120 + 10) 65 15 2 2;
         SetFontSize 10; SetFont "helvetica" "bold"; SetTextColor 71 85 105;
         Text (Literal (lit "VALOR TOTAL:")) 135 (120 + 10 + 9)%Q AlignLeft;
         SetFontSize 14; SetTextColor 79 70 229;
         Text (Currency (JNumber (Num 50))) 190 (120 + 10 + 9)%Q AlignRight;
         SetFontSize 8; SetTextColor 148 163 184; SetFont "helvetica" "italic";
         Text (Literal tagline) 105 (120 + 10 + 30)%Q AlignCenter;
         Text (Literal validityNote) 105 (120 + 10 + 34)%Q AlignCenter ].
Proof.
  destruct (footer_pagination crowdedHost
              (Some [Object (statue 1 (JNumber (Num 50)))]) anonymous)
    as (f1 & _ & _ & E1 & H1 & _); [ discriminate | ].
  destruct (footer_pagination quietHost
              (Some [Object (statue 1 (JNumber (Num 50)))]) anonymous)
    as (f2 & _ & _ & E2 & _ & H2); [ discriminate | ].
  split.
  - etransitivity; [ symmetry; exact E1 | ]. apply H1. reflexivity.
  - etransitivity; [ symmetry; exact E2 | ]. apply H2. discriminate.
Defined.

(** ** The image cache *)

Lemma insertByTime_In (s x : time * propertyKey * option jsstring)
  (l : list (time * propertyKey * option jsstring)) :
  In x (insertByTime s l) -> x = s \/ In x l.
Proof.
  induction l as [ | s' l IH ]; simpl.
  - intros [ <- | [] ]. now left.
  - destruct (fst (fst s) <? fst (fst s'))%N; simpl.
    + intros [ <- | H ]; [ now left | now right ].
    + intros [ <- | H ]; [ right; now left | ].
      destruct (IH H) as [ -> | H' ]; [ now left | right; now right ].
Qed.

Lemma inSettlingOrder_In (x : time * propertyKey * option jsstring)
  (l : list (time * propertyKey * option jsstring)) :
  In x (inSettlingOrder l) -> In x l.
Proof.
  unfold inSettlingOrder.
  assert (forall sorted,
            In x (fold_left (fun sorted s => insertByTime s sorted) l sorted) ->
            In x sorted \/ In x l) as H.
  { induction l as [ | s l IH ]; intros sorted; simpl; [ now left | ].
    intros Hx. destruct (IH _ Hx) as [ H | H ]; [ | right; now right ].
    destruct (insertByTime_In _ _ _ H) as [ -> | H' ];
      [ right; now left | now left ]. }
  intros Hx. destruct (H [] Hx) as [ [] | Hl ]. exact Hl.
Qed.

Lemma stores_lookup (l : list (time * propertyKey * option jsstring))
  (cache : imageCacheT) (k : propertyKey) (v : option jsstring) :
  fold_left (fun cache s => <[snd (fst s) := snd s]> cache) l cache !! k = Some v ->
  cache !! k = Some v \/ exists t, In (t, k, v) l.
Proof.
  revert cache. induction l as [ | [[t k'] v'] l IH ]; intros cache; simpl.
  - now left.
  - intros H. destruct (IH _ H) as [ H' | (t0 & H') ].
    + apply lookup_insert_Some in H' as [ [<- <-] | [_ H'] ].
      * right. exists t. now left.
      * now left.
    + right. exists t0. now right.
Qed.

Lemma storeAll_lookup (stores : list (time * propertyKey * option jsstring))
  (k : propertyKey) (v : option jsstring) :
  storeAll stores !! k = Some v -> exists t, In (t, k, v) stores.
Proof.
  unfold storeAll. intros H.
  destruct (stores_lookup _ _ _ _ H) as [ H' | (t & H') ].
  - rewrite lookup_empty in H'. discriminate.
  - exists t. apply inSettlingOrder_In, H'.
Qed.

Lemma joinAll_In (rs : list (propertyKey * resolution))
  (stores : list (time * propertyKey * option jsstring))
  (t : time) (k : propertyKey) (v : option jsstring) :
  joinAll rs = AllSettled stores -> In (t, k, v) stores ->
  exists r, In (k, r) rs /\ settled r = Fulfilled t v.
Proof.
  revert stores. induction rs as [ | [k' r] rs IH ]; intros stores; simpl.
  - intros [= <-] [].
  - destruct (settled r) as [ t' v' | e | ] eqn:Hr;
      destruct (joinAll rs) as [ stores' | e' | ]; try discriminate.
    intros [= <-] [ [= <- <- <-] | Hin ].
    + exists r. split; [ now left | exact Hr ].
    + destruct (IH _ eq_refl Hin) as (r0 & H1 & H2).
      exists r0. split; [ now right | exact H2 ].
Qed.

Lemma startResolutions_In (n : network) (valid : list ItemObject)
  (k : propertyKey) (r : resolution) :
  In (k, r) (startResolutions n valid) ->
  exists item,
    In item valid /\ wantsImage item = true
    /\ k = toPropertyKey (id item)
    /\ r = getBase64ImageFromURL n (imagem item).
Proof.
  unfold startResolutions. rewrite List.in_flat_map.
  intros (item & Hin & H). exists item.
  destruct (wantsImage item); [ | destruct H ].
  destruct H as [ [= <- <-] | [] ]. auto.
Qed.

Lemma payload_not_empty (n : network) (url : jsval) (t : time)
  (img : jsstring) :
  settled (getBase64ImageFromURL n url) = Fulfilled t (Some img) ->
  isEmptyString img = false.
Proof.
  destruct (acceptsUrl url) eqn:Hok.
  - rewrite (accepted_resolution n _ Hok). simpl.
    unfold firstResolve, imageResolve.
    destruct (n (toString url)) as [ t' c | t' | ]; simpl.
    + destruct (t' <? timeoutMs)%N; simpl; [ | discriminate ].
      destruct c; simpl; try discriminate.
      intros [= _ <-]. reflexivity.
    + destruct (t' <? timeoutMs)%N; discriminate.
    + discriminate.
  - rewrite (refused_resolution n _ Hok). discriminate.
Qed.

Lemma same_key_same_truth (i i' : option jsnum) :
  toPropertyKey i = toPropertyKey i' -> idTruthy i = idTruthy i'.
Proof.
  destruct i as [ [ q | ] | ], i' as [ [ q' | ] | ]; simpl;
    try discriminate; try reflexivity.
  intros [= H].
  assert (q == q')%Q as E.
  { rewrite <- (Qred_correct q), <- (Qred_correct q'), H. reflexivity. }
  f_equal. destruct (Qeq_bool q 0) eqn:E1, (Qeq_bool q' 0) eqn:E2;
    try reflexivity.
  - apply Qeq_bool_eq in E1. apply Qeq_bool_neq in E2.
    elim E2. rewrite <- E. exact E1.
  - apply Qeq_bool_eq in E2. apply Qeq_bool_neq in E1.
    elim E1. rewrite E. exact E2.
Qed.

(** What the cache of a call holds: payloads, under the ids of items that
    have an id. *)
Lemma cache_entries (n : network) (valid : list ItemObject)
  (stores : list (time * propertyKey * option jsstring))
  (item : ItemObject) (img : jsstring) :
  joinAll (startResolutions n valid) = AllSettled stores ->
  storeAll stores !! toPropertyKey (id item) = Some (Some img) ->
  idTruthy (id item) = true /\ isEmptyString img = false.
Proof.
  intros Hj Hc.
  destruct (storeAll_lookup _ _ _ Hc) as (t & Hin).
  destruct (joinAll_In _ _ _ _ _ Hj Hin) as (r & Hr & Hs).
  destruct (startResolutions_In _ _ _ _ Hr) as (w & _ & Hw & Hk & ->).
  split.
  - rewrite (same_key_same_truth _ _ Hk).
    unfold wantsImage in Hw. apply andb_true_iff in Hw. tauto.
  - eapply payload_not_empty, Hs.
Qed.

(** ** The draw hook *)

Lemma arrayGet_outside {A} (l : list A) (i : Z) :
  i < 0 \/ Z.of_nat (List.length l) <= i -> arrayGet l i = None.
Proof.
  unfold arrayGet. intros [ H | H ].
  - destruct (Z.ltb_spec i 0); [ reflexivity | lia ].
  - destruct (Z.ltb_spec i 0); [ reflexivity | ].
    apply lookup_ge_None. change (@length A) with (@List.length A). lia.
Qed.

Lemma cachedImage_absent (cache : imageCacheT) (k : propertyKey) :
  cache !! k = None \/ cache !! k = Some None -> cachedImage cache k = None.
Proof. unfold cachedImage. intros [ -> | -> ]; reflexivity. Qed.

Lemma centred (a w : Q) :
  (a + (w - imgSize) / 2 - a == a + w - (a + (w - imgSize) / 2 + imgSize))%Q.
Proof. unfold imgSize. field. Qed.

(** The hook, case by case.  It draws nothing when the row index is
    outside the list, and nothing when the cache has no entry or a null
    entry under the id of the row's item.  In a call of [generatePDF],
    when the cache holds a payload under the id of the row's item, the
    hook passes that payload to jsPDF for the thumbnail cell, 18 by 18,
    with equal margins left and right and equal margins above and
    below; it raises when jsPDF refuses the payload. *)
Lemma didDrawCell_cases (decodes : decoder) (n : network)
  (valid : list ItemObject) (cache : imageCacheT) (data : CellHookData) :
  (rowIndex data < 0 \/ Z.of_nat (List.length valid) <= rowIndex data ->
   didDrawCell decodes valid cache data = Ret [])
  /\ (forall item,
        arrayGet valid (rowIndex data) = Some item ->
        cache !! toPropertyKey (id item) = None
        \/ cache !! toPropertyKey (id item) = Some None ->
        didDrawCell decodes valid cache data = Ret [])
  /\ (forall stores item img,
        joinAll (startResolutions n valid) = AllSettled stores ->
        cache = storeAll stores ->
        section data = Body -> columnIndex data = 0 ->
        arrayGet valid (rowIndex data) = Some item ->
        cache !! toPropertyKey (id item) = Some (Some img) ->
        exists x y,
          didDrawCell decodes valid cache data
          = (if decodes img then Ret [AddImage img x y 18 18]
             else Throw undecodable)
          /\ (x - cellX data == cellX data + cellWidth data - (x + 18))%Q
          /\ (y - cellY data == cellY data + cellHeight data - (y + 18))%Q).
Proof.
  rewrite didDrawCell_outcome. unfold hookResult. repeat split.
  - intros Hout. rewrite (arrayGet_outside _ _ Hout).
    destruct (isBody (section data) && (columnIndex data =? 0)); reflexivity.
  - intros item Hitem Hc. rewrite Hitem, (cachedImage_absent _ _ Hc).
    destruct (isBody (section data) && (columnIndex data =? 0));
      [ | reflexivity ].
    destruct (idTruthy (id item)); reflexivity.
  - intros stores item img Hj -> Hs Hcol Hitem Hc.
    destruct (cache_entries n valid stores item img Hj Hc) as [Hid Himg].
    rewrite Hs, Hcol, Hitem, Hid. simpl.
    unfold cachedImage. rewrite Hc, Himg.
    eexists _, _. split; [ | split; apply centred ].
    simpl. destruct (decodes img); reflexivity.
Qed.

(** C6 does not hold of the code: the hook can throw.  An item with id 7
    has an image that loads, but whose canvas cannot be encoded, so that
    the cache of the call holds the string "data:," under 7.  jsPDF
    refuses that payload.  The hook, called for the thumbnail cell of
    the item's row, raises: line 164 calls [addImage] outside any [try].
    The raise leaves the table and the call: [generatePDF] rejects after
    the table was started, no thumbnail is drawn and nothing is saved.
    The same payload as the logo raises nothing, because lines 69-77
    catch it. *)
Theorem draw_hook_raises :
  joinAll (startResolutions blankNet [pictured 7])
  = AllSettled [(100%N, toPropertyKey (Some (Num 7)), Some (lit "data:,"))]
  /\ refusesEmptyImage (lit "data:,") = false
  /\ didDrawCell refusesEmptyImage [pictured 7]
       (storeAll [(100%N, toPropertyKey (Some (Num 7)), Some (lit "data:,"))])
       (thumbnailCell 0)
     = Throw undecodable
  /\ (exists trace,
        generatePDF refusesEmptyImage blankHost (Some [Object (pictured 7)])
          anonymous
        = Raised trace undecodable
        /\ In (AutoTable 65 tableHead [tableRow (pictured 7)]) trace
        /\ (forall data x y w hh, ~ In (AddImage data x y w hh) trace)
        /\ (forall f, ~ In (Save f) trace))
  /\ logoOps refusesEmptyImage (Some (lit "data:,")) = [].
Proof.
  split; [ reflexivity | ]. split; [ reflexivity | ].
  split; [ reflexivity | ]. split; [ | reflexivity ].
  eexists. split; [ reflexivity | ]. split.
  - simpl. repeat (try (left; reflexivity); right).
  - split.
    + intros data x y w hh Hin. simpl in Hin.
      repeat (destruct Hin as [ Hin | Hin ]; [ discriminate Hin | ]).
      exact Hin.
    + intros f Hin. simpl in Hin.
      repeat (destruct Hin as [ Hin | Hin ]; [ discriminate Hin | ]).
      exact Hin.
Qed.

(** ** Items without an id *)

(** C10.  An item whose id is falsy (0, NaN, or absent) is skipped when
    the images are resolved, whatever its image reference: the
    resolutions started, hence the requests made and the cache built,
    are those of the list without it.  And the hook draws nothing in
    its row, whatever the cache holds and whatever jsPDF accepts. *)
Theorem falsy_id_gets_no_image (n : network) (item : ItemObject) :
  idTruthy (id item) = false ->
  wantsImage item = false
  /\ (forall before after,
        startResolutions n (before ++ item :: after)
        = startResolutions n (before ++ after))
  /\ (forall decodes valid cache data,
        arrayGet valid (rowIndex data) = Some item ->
        didDrawCell decodes valid cache data = Ret []).
Proof.
  intros Hid.
  assert (wantsImage item = false) as Hw by (unfold wantsImage; now rewrite Hid).
  repeat split.
  - exact Hw.
  - intros before after. unfold startResolutions.
    rewrite !List.flat_map_app. simpl. rewrite Hw. reflexivity.
  - intros decodes valid cache data Hitem.
    rewrite didDrawCell_outcome. unfold hookResult. rewrite Hitem, Hid.
    destruct (isBody (section data) && (columnIndex data =? 0)); reflexivity.
Qed.

Lemma falsy_id_gets_no_image_witness :
  acceptsUrl (imagem (pictured 0)) = true
  /\ startResolutions promptNet [pictured 0] = []
  /\ didDrawCell acceptsAll [pictured 0]
       (<[toPropertyKey (Some (Num 0))
          := Some (lit "data:image/png;base64,iVBORw0KGgo=")]> ∅)
       (thumbnailCell 0) = Ret [].
Proof.
  destruct (falsy_id_gets_no_image promptNet (pictured 0)) as (_ & H2 & H3);
    [ reflexivity | ].
  split; [ reflexivity | ]. split.
  - apply (H2 [] []).
  - apply H3. reflexivity.
Defined.

(** ** The cart *)

Section CartFacts.

Import Cart.
Local Open Scope Q_scope.

Lemma isInteger_iff (q : Q) : isInteger q <-> exists z, q == inject_Z z.
Proof.
  unfold isInteger. split.
  - intros H. exists (Qfloor q). symmetry. exact H.
  - intros (z & E). rewrite (Qfloor_comp q (inject_Z z) E), Qfloor_Z.
    symmetry. exact E.
Qed.

Lemma isInteger_succ (q : Q) : isInteger q -> isInteger (q + 1).
Proof.
  rewrite !isInteger_iff. intros (z & E). exists (z + 1)%Z.
  rewrite inject_Z_plus, E. reflexivity.
Qed.

Lemma isInteger_pred (q : Q) : isInteger q -> isInteger (q + -1).
Proof.
  rewrite !isInteger_iff. intros (z & E). exists (z + -1)%Z.
  rewrite inject_Z_plus, E. reflexivity.
Qed.

Lemma isInteger_max1 (q : Q) : isInteger q -> isInteger (Qmax 1 q).
Proof.
  intros H. destruct (Q.max_spec 1 q) as [ [_ E] | [_ E] ].
  - apply isInteger_iff in H as (z & Ez). apply isInteger_iff.
    exists z. rewrite E. exact Ez.
  - apply isInteger_iff. exists 1%Z. rewrite E. reflexivity.
Qed.

Lemma consistent_new (p : Product) :
  consistent {| product := p; quantity := 1; total := valor p |}.
Proof.
  unfold consistent. simpl. split; [ | split ].
  - ring.
  - apply isInteger_iff. exists 1%Z. reflexivity.
  - apply Qle_refl.
Qed.

Lemma consistent_incremented (item : BudgetItem) :
  consistent item ->
  consistent {| product := product item;
                quantity := quantity item + 1;
                total := (quantity item + 1) * valor (product item) |}.
Proof.
  intros (_ & Hi & Hq). unfold consistent. simpl. split; [ | split ].
  - reflexivity.
  - apply isInteger_succ, Hi.
  - lra.
Qed.

Lemma consistent_updated (item : BudgetItem) (delta : Q) :
  delta = 1 \/ delta = -1 ->
  consistent item ->
  consistent {| product := product item;
                quantity := Qmax 1 (quantity item + delta);
                total := Qmax 1 (quantity item + delta) * valor (product item) |}.
Proof.
  intros Hd (_ & Hi & _). unfold consistent. simpl. split; [ | split ].
  - reflexivity.
  - apply isInteger_max1.
    destruct Hd as [ -> | -> ]; [ apply isInteger_succ | apply isInteger_pred ];
      exact Hi.
  - apply Q.le_max_l.
Qed.

Lemma addItem_consistent (p : Product) (cart : list BudgetItem) :
  Forall consistent cart -> Forall consistent (addItem p cart).
Proof.
  intros H. unfold addItem.
  destruct (List.find _ cart) as [ existing | ].
  - induction H as [ | item cart Hitem _ IH ]; simpl; constructor.
    + destruct (sameId (id (product item)) (id p));
        [ apply consistent_incremented | ]; exact Hitem.
    + exact IH.
  - apply Forall_app. split; [ exact H | ].
    constructor; [ apply consistent_new | constructor ].
Qed.

Lemma updateQuantity_consistent (i delta : Q) (cart : list BudgetItem) :
  delta = 1 \/ delta = -1 ->
  Forall consistent cart -> Forall consistent (updateQuantity i delta cart).
Proof.
  intros Hd H. unfold updateQuantity.
  induction H as [ | item cart Hitem _ IH ]; simpl; constructor.
  - destruct (sameId (id (product item)) i);
      [ apply consistent_updated | ]; assumption.
  - exact IH.
Qed.

Lemma removeItem_consistent (i : Q) (cart : list BudgetItem) :
  Forall consistent cart -> Forall consistent (removeItem i cart).
Proof.
  intros H. unfold removeItem.
  induction H as [ | item cart Hitem _ IH ]; simpl; [ constructor | ].
  destruct (negb _); [ constructor; assumption | exact IH ].
Qed.

Lemma step_consistent (cart : list BudgetItem) (a : action) :
  Forall consistent cart -> Forall consistent (step cart a).
Proof.
  intros H. destruct a; simpl.
  - apply addItem_consistent, H.
  - apply updateQuantity_consistent; [ now left | exact H ].
  - apply updateQuantity_consistent; [ now right | exact H ].
  - apply removeItem_consistent, H.
Qed.

Lemma cartAfter_consistent (actions : list action) :
  Forall consistent (cartAfter actions).
Proof.
  unfold cartAfter.
  assert (forall cart, Forall consistent cart ->
                       Forall consistent (fold_left step actions cart)) as H.
  { induction actions as [ | a actions IH ]; intros cart Hc; simpl;
      [ exact Hc | ].
    apply IH, step_consistent, Hc. }
  apply H. constructor.
Qed.

End CartFacts.

(** C9.  Adding a product, and incrementing or decrementing a quantity,
    keep every line of the cart consistent: its total is its quantity
    times its unit price, and its quantity is an integer, at least 1.
    So every line of a cart built from the empty cart is consistent, and
    that is what the export hands to [generatePDF]. *)
Theorem cart_lines_consistent :
  (forall p cart,
     Forall Cart.consistent cart -> Forall Cart.consistent (Cart.addItem p cart))
  /\ (forall i cart,
        Forall Cart.consistent cart ->
        Forall Cart.consistent (Cart.updateQuantity i 1 cart))
  /\ (forall i cart,
        Forall Cart.consistent cart ->
        Forall Cart.consistent (Cart.updateQuantity i (-1) cart))
  /\ (forall actions, Forall Cart.consistent (Cart.cartAfter actions)).
Proof.
  repeat split.
  - apply addItem_consistent.
  - intros i cart. apply updateQuantity_consistent. now left.
  - intros i cart. apply updateQuantity_consistent. now right.
  - apply cartAfter_consistent.
Qed.

Lemma cart_lines_consistent_witness :
  Forall Cart.consistent twoSaints
  /\ Forall Cart.consistent (Cart.addItem saint twoSaints)
  /\ Forall Cart.consistent (Cart.updateQuantity 12 (-1) twoSaints).
Proof.
  assert (Forall Cart.consistent twoSaints) as H.
  { constructor; [ | constructor ].
    unfold Cart.consistent, Cart.isInteger. simpl.
    split; [ reflexivity | split; [ reflexivity | discriminate ] ]. }
  destruct cart_lines_consistent as (H1 & _ & H3 & _).
  split; [ exact H | ].
  split; [ apply H1, H | apply H3, H ].
Defined.

(** * Further properties of the composer *)

(** ** Sanitation *)

Lemma validItems_objects (l : list entry) : validItems (Some l) = objectsOf l.
Proof.
  unfold validItems, objectsOf. simpl.
  induction l as [ | [ v | it ] l IH ].
  - reflexivity.
  - cbn [List.filter]. rewrite primitive_dropped. exact IH.
  - cbn [List.filter isValidEntry List.flat_map]. rewrite IH. reflexivity.
Qed.

(** The trace of a call that has at least one valid item, in full. *)
Lemma generatePDF_trace (decodes : decoder) (h : host)
  (items : option (list entry)) (client : ClientInfo) :
  validItems items <> [] ->
  exists stores t v,
    joinAll (startResolutions (net h) (validItems items)) = AllSettled stores
    /\ settled (getBase64ImageFromURL (net h) (JString logoUrl))
       = Fulfilled t v
    /\ if forallb (drawable decodes) (thumbnails h (validItems items) stores)
       then generatePDF decodes h items client
            = Returned
                (NewDocument
                 :: (requestsOf (startResolutions (net h) (validItems items))
                     ++ [Request logoUrl] ++ logoOps decodes v
                     ++ headerOps h client
                     ++ [AutoTable 65 tableHead
                           (List.map tableRow (validItems items))]
                     ++ thumbnails h (validItems items) stores
                     ++ footerOps
                          (layout h (List.map tableRow (validItems items)))
                          (pageHeight h) (totalPrice (validItems items)))
                 ++ [Save (fileName client)])
       else exists drawn rest data x y w hh,
              generatePDF decodes h items client
              = Raised
                  (NewDocument
                   :: requestsOf (startResolutions (net h) (validItems items))
                      ++ [Request logoUrl] ++ logoOps decodes v
                      ++ headerOps h client
                      ++ [AutoTable 65 tableHead
                            (List.map tableRow (validItems items))]
                      ++ drawn ++ [])
                  undecodable
              /\ thumbnails h (validItems items) stores
                 = drawn ++ AddImage data x y w hh :: rest
              /\ forallb (drawable decodes) drawn = true
              /\ decodes data = false.
Proof.
  intros Hne.
  destruct (generatePDF_outcome decodes h items client Hne)
    as (stores & fetched & v & Hj & -> & (t & Hl) & H).
  exists stores, t, v. split; [ exact Hj | ]. split; [ exact Hl | ].
  rewrite (accepted_resolution (net h) (JString logoUrl) eq_refl) in H.
  cbn [requested List.map toString] in H.
  destruct (forallb (drawable decodes) _).
  - rewrite H. f_equal. rewrite <- List.app_comm_cons. f_equal.
    repeat rewrite <- List.app_assoc. reflexivity.
  - destruct H as (drawn & rest & data & x & y & w & hh & H & Hrest).
    exists drawn, rest, data, x, y, w, hh. split; [ | exact Hrest ].
    rewrite H. f_equal. rewrite <- List.app_comm_cons, List.app_nil_r.
    f_equal. repeat rewrite <- List.app_assoc. reflexivity.
Qed.

(** The same on a jsPDF that accepts every payload. *)
Lemma generatePDF_accepting_trace (h : host) (items : option (list entry))
  (client : ClientInfo) :
  validItems items <> [] ->
  exists stores t v,
    joinAll (startResolutions (net h) (validItems items)) = AllSettled stores
    /\ settled (getBase64ImageFromURL (net h) (JString logoUrl))
       = Fulfilled t v
    /\ generatePDF acceptsAll h items client
       = Returned
           (NewDocument
            :: (requestsOf (startResolutions (net h) (validItems items))
                ++ [Request logoUrl] ++ logoOps acceptsAll v
                ++ headerOps h client
                ++ [AutoTable 65 tableHead
                      (List.map tableRow (validItems items))]
                ++ thumbnails h (validItems items) stores
                ++ footerOps (layout h (List.map tableRow (validItems items)))
                     (pageHeight h) (totalPrice (validItems items)))
            ++ [Save (fileName client)]).
Proof.
  intros Hne.
  destruct (generatePDF_trace acceptsAll h items client Hne)
    as (stores & t & v & Hj & Hl & H).
  rewrite drawable_acceptsAll in H. exists stores, t, v. auto.
Qed.

(** ** What each part of the trace is made of *)

Lemma requestsOf_ops (rs : list (propertyKey * resolution)) (o : op) :
  In o (requestsOf rs) ->
  exists k r src, In (k, r) rs /\ In src (requested r) /\ o = Request src.
Proof.
  unfold requestsOf. rewrite List.in_flat_map.
  intros ([k r] & Hin & Ho). simpl in Ho.
  apply List.in_map_iff in Ho as (src & <- & Hsrc).
  exists k, r, src. auto.
Qed.

Lemma logoOps_ops (decodes : decoder) (v : option jsstring) (o : op) :
  In o (logoOps decodes v) ->
  exists d,
    v = Some d /\ isEmptyString d = false /\ decodes d = true
    /\ o = AddImage d 15 10 35 12.
Proof.
  unfold logoOps, addImage. destruct v as [ d | ]; [ | intros [] ].
  destruct (isEmptyString d) eqn:E; [ intros [] | ].
  destruct (decodes d) eqn:Hd; [ | intros [] ].
  intros [ <- | [] ]. eauto.
Qed.

Lemma headerOps_plain (h : host) (client : ClientInfo) :
  forallb isPlainDrawing (headerOps h client) = true.
Proof.
  unfold headerOps. rewrite List.forallb_app.
  destruct (present (phone client)); reflexivity.
Qed.

Lemma footerOps_plain (run : tableRun) (pageH : Q) (t : jsval) :
  forallb isPlainDrawing (footerOps run pageH t) = true.
Proof.
  unfold footerOps. rewrite List.forallb_app.
  destruct (footerOverflows run pageH); reflexivity.
Qed.

Lemma hookResult_ops (valid : list ItemObject) (cache : imageCacheT)
  (data : CellHookData) (o : op) :
  In o (hookResult valid cache data) ->
  exists item img x y,
    o = AddImage img x y imgSize imgSize
    /\ arrayGet valid (rowIndex data) = Some item
    /\ idTruthy (id item) = true
    /\ cachedImage cache (toPropertyKey (id item)) = Some img.
Proof.
  unfold hookResult.
  destruct (isBody (section data) && (columnIndex data =? 0));
    [ | intros [] ].
  destruct (arrayGet valid (rowIndex data)) as [ item | ]; [ | intros [] ].
  destruct (idTruthy (id item)) eqn:Hid; [ | intros [] ].
  destruct (cachedImage cache (toPropertyKey (id item))) as [ img | ] eqn:Hc;
    [ | intros [] ].
  intros [ <- | [] ]. eexists item, img, _, _. auto.
Qed.

(** Every operation of the part of the trace between the creation of the
    document and the save, or the raise. *)
Lemma body_ops (decodes : decoder) (h : host) (valid : list ItemObject)
  (stores : list (time * propertyKey * option jsstring))
  (v : option jsstring) (client : ClientInfo) (drawn rest : list op)
  (o : op) :
  (forall o', In o' drawn -> In o' (thumbnails h valid stores)) ->
  forallb isPlainDrawing rest = true ->
  In o (requestsOf (startResolutions (net h) valid)
        ++ [Request logoUrl] ++ logoOps decodes v
        ++ headerOps h client
        ++ [AutoTable 65 tableHead (List.map tableRow valid)]
        ++ drawn ++ rest) ->
  (exists src, o = Request src)
  \/ (exists d x y w hh, o = AddImage d x y w hh)
  \/ isPlainDrawing o = true
  \/ o = AutoTable 65 tableHead (List.map tableRow valid).
Proof.
  intros Hdrawn Hrest H.
  apply List.in_app_or in H as [ H | H ].
  { destruct (requestsOf_ops _ _ H) as (_ & _ & src & _ & _ & ->). eauto. }
  apply List.in_app_or in H as [ [ <- | [] ] | H ]; [ eauto | ].
  apply List.in_app_or in H as [ H | H ].
  { destruct (logoOps_ops _ _ _ H) as (d & _ & _ & _ & ->).
    right. left. eauto 6. }
  apply List.in_app_or in H as [ H | H ].
  { right. right. left.
    pose proof (headerOps_plain h client) as Hp.
    rewrite List.forallb_forall in Hp. apply Hp, H. }
  apply List.in_app_or in H as [ [ <- | [] ] | H ]; [ auto | ].
  apply List.in_app_or in H as [ H | H ].
  { apply Hdrawn, List.in_flat_map in H as (data & _ & H).
    destruct (hookResult_ops _ _ _ _ H) as (_ & img & x & y & -> & _).
    right. left. eauto 6. }
  right. right. left.
  rewrite List.forallb_forall in Hrest. apply Hrest, H.
Qed.

(** Such a part holds no save, no second document and no alert. *)
Lemma body_quiet (decodes : decoder) (h : host) (valid : list ItemObject)
  (stores : list (time * propertyKey * option jsstring))
  (v : option jsstring) (client : ClientInfo) (drawn rest : list op) :
  (forall o', In o' drawn -> In o' (thumbnails h valid stores)) ->
  forallb isPlainDrawing rest = true ->
  let body := requestsOf (startResolutions (net h) valid)
              ++ [Request logoUrl] ++ logoOps decodes v
              ++ headerOps h client
              ++ [AutoTable 65 tableHead (List.map tableRow valid)]
              ++ drawn ++ rest in
  (forall f, ~ In (Save f) body)
  /\ ~ In NewDocument body
  /\ (forall msg, ~ In (Alert msg) body).
Proof.
  intros Hdrawn Hrest body. repeat split.
  - intros f H. apply (body_ops _ _ _ _ _ _ _ _ _ Hdrawn Hrest) in H
      as [ (? & E) | [ (? & ? & ? & ? & ? & E) | [ E | E ] ] ];
      discriminate E.
  - intros H. apply (body_ops _ _ _ _ _ _ _ _ _ Hdrawn Hrest) in H
      as [ (? & E) | [ (? & ? & ? & ? & ? & E) | [ E | E ] ] ];
      discriminate E.
  - intros msg H. apply (body_ops _ _ _ _ _ _ _ _ _ Hdrawn Hrest) in H
      as [ (? & E) | [ (? & ? & ? & ? & ? & E) | [ E | E ] ] ];
      discriminate E.
Qed.

(** The two ways a call with at least one valid item ends. *)
Lemma generatePDF_ends (decodes : decoder) (h : host)
  (items : option (list entry)) (client : ClientInfo) :
  validItems items <> [] ->
  exists stores,
    joinAll (startResolutions (net h) (validItems items)) = AllSettled stores
    /\ if forallb (drawable decodes) (thumbnails h (validItems items) stores)
       then exists body,
              generatePDF decodes h items client
              = Returned (NewDocument :: body ++ [Save (fileName client)])
              /\ (forall f, ~ In (Save f) body)
              /\ ~ In NewDocument body
              /\ (forall msg, ~ In (Alert msg) body)
       else exists body data x y w hh,
              generatePDF decodes h items client
              = Raised (NewDocument :: body) undecodable
              /\ In (AddImage data x y w hh)
                   (thumbnails h (validItems items) stores)
              /\ decodes data = false
              /\ (forall f, ~ In (Save f) body)
              /\ ~ In NewDocument body
              /\ (forall msg, ~ In (Alert msg) body).
Proof.
  intros Hne.
  destruct (generatePDF_trace decodes h items client Hne)
    as (stores & t & v & Hj & _ & H).
  exists stores. split; [ exact Hj | ].
  destruct (forallb (drawable decodes) _).
  - eexists. split; [ exact H | ].
    apply (body_quiet decodes h (validItems items) stores v client);
      [ auto | apply footerOps_plain ].
  - destruct H as (drawn & rest & data & x & y & w & hh & H & E & _ & Hr).
    eexists _, data, x, y, w, hh. split; [ exact H | ].
    split; [ rewrite E; apply List.in_or_app; right; now left | ].
    split; [ exact Hr | ].
    apply (body_quiet decodes h (validItems items) stores v client);
      [ | reflexivity ].
    intros o' Ho'. rewrite E. apply List.in_or_app. now left.
Qed.

(** X1.  With at least one valid item the call never hangs, and it ends
    in one of two ways.  When jsPDF accepts every thumbnail the call asks
    it to draw, the call returns, and its trace is the creation of the
    document, then requests, images, text and the table, and last the
    one save, under the file name of the client.  When jsPDF refuses one
    of them, the call raises there: the document was created, nothing is
    saved and no alert is shown. *)
Theorem export_saves_once_at_the_end (decodes : decoder) (h : host)
  (items : option (list entry)) (client : ClientInfo) :
  validItems items <> [] ->
  exists stores,
    joinAll (startResolutions (net h) (validItems items)) = AllSettled stores
    /\ if forallb (drawable decodes) (thumbnails h (validItems items) stores)
       then exists body,
              generatePDF decodes h items client
              = Returned (NewDocument :: body ++ [Save (fileName client)])
              /\ (forall f, ~ In (Save f) body)
              /\ ~ In NewDocument body
              /\ (forall msg, ~ In (Alert msg) body)
       else exists body data x y w hh,
              generatePDF decodes h items client
              = Raised (NewDocument :: body) undecodable
              /\ In (AddImage data x y w hh)
                   (thumbnails h (validItems items) stores)
              /\ decodes data = false
              /\ (forall f, ~ In (Save f) body)
              /\ ~ In NewDocument body
              /\ (forall msg, ~ In (Alert msg) body).
Proof. apply generatePDF_ends. Qed.

Lemma export_saves_once_at_the_end_witness :
  (exists body,
     generatePDF acceptsAll promptHost
       (Some [Primitive JNull; Object (pictured 7)]) joao
     = Returned (NewDocument :: body
                 ++ [Save (lit "Orcamento_Jo_o_99__Ltda_.pdf")])
     /\ (forall f, ~ In (Save f) body))
  /\ (exists body,
        generatePDF refusesEmptyImage blankHost
          (Some [Primitive JNull; Object (pictured 7)]) joao
        = Raised (NewDocument :: body) undecodable
        /\ (forall f, ~ In (Save f) body)).
Proof.
  split.
  - destruct (export_saves_once_at_the_end acceptsAll promptHost
                (Some [Primitive JNull; Object (pictured 7)]) joao)
      as (stores & Hj & H); [ discriminate | ].
    injection Hj as <-.
    destruct H as (body & H1 & H2 & _).
    exists body. split; [ exact H1 | exact H2 ].
  - destruct (export_saves_once_at_the_end refusesEmptyImage blankHost
                (Some [Primitive JNull; Object (pictured 7)]) joao)
      as (stores & Hj & H); [ discriminate | ].
    injection Hj as <-.
    destruct H as (body & data & x & y & w & hh & H1 & _ & _ & H2 & _).
    exists body. split; [ exact H1 | exact H2 ].
Defined.

(** ** The resolver and the network *)

Lemma startsWith_iff (s p : jsstring) :
  startsWith s p = true <-> exists rest, s = p ++ rest.
Proof.
  revert s. induction p as [ | c p IH ]; intros s; simpl.
  - split; [ intros _; exists s; reflexivity | destruct s; reflexivity ].
  - destruct s as [ | c' s ]; simpl.
    + split; [ discriminate | intros (rest & H); discriminate H ].
    + rewrite andb_true_iff, N.eqb_eq, IH. split.
      * intros (-> & rest & ->). exists rest. reflexivity.
      * intros (rest & [= -> ->]). split; [ reflexivity | eauto ].
Qed.

(** X2.  The resolver touches the network exactly for the strings that begin
    with the four code units h, t, t, p, in lower case, and then sets
    [img.src] once, to that very string.  (So "HTTP://..." and
    "//host/a.png" are refused, and "httpx" is requested.) *)
Theorem resolver_requests_iff_http (n : network) (url : jsval) :
  ((exists rest, url = JString (lit "http" ++ rest)) ->
   exists s, url = JString s
             /\ requested (getBase64ImageFromURL n url) = [s])
  /\ (~ (exists rest, url = JString (lit "http" ++ rest)) ->
      requested (getBase64ImageFromURL n url) = []
      /\ settled (getBase64ImageFromURL n url) = Fulfilled 0%N None).
Proof.
  split.
  - intros (rest & ->). eexists. split; [ reflexivity | ].
    rewrite accepted_resolution; [ reflexivity | ].
    apply andb_true_iff. split; [ reflexivity | ].
    apply startsWith_iff. eauto.
  - intros Hno.
    assert (acceptsUrl url = false) as Hr.
    { destruct url as [ | | b | k | s ]; try reflexivity.
      unfold acceptsUrl. apply not_true_iff_false. intros H.
      apply andb_true_iff in H as [_ H]. apply startsWith_iff in H.
      destruct H as (rest & ->). apply Hno. eauto. }
    rewrite (refused_resolution n _ Hr). split; reflexivity.
Qed.

Lemma resolver_requests_iff_http_witness :
  requested (getBase64ImageFromURL promptNet (JString (lit "httpx")))
  = [lit "httpx"]
  /\ requested (getBase64ImageFromURL promptNet
                  (JString (lit "HTTP://HOST/A.PNG"))) = []
  /\ requested (getBase64ImageFromURL promptNet
                  (JString (lit "//host/a.png"))) = [].
Proof.
  split; [ | split ].
  - destruct (resolver_requests_iff_http promptNet (JString (lit "httpx")))
      as [H _].
    destruct H as (s & [= <-] & H); [ exists (lit "x"); reflexivity | exact H ].
  - apply (resolver_requests_iff_http promptNet
             (JString (lit "HTTP://HOST/A.PNG"))).
    intros (rest & H). discriminate H.
  - apply (resolver_requests_iff_http promptNet
             (JString (lit "//host/a.png"))).
    intros (rest & H). discriminate H.
Defined.

(** A payload is the data: URL of an image that loaded in time. *)
Lemma payload_origin (n : network) (url : jsval) (t : time) (img : jsstring) :
  settled (getBase64ImageFromURL n url) = Fulfilled t (Some img) ->
  exists body,
    img = lit "data:" ++ body
    /\ n (toString url) = Loads t (Encoded body)
    /\ (t < 5000)%N.
Proof.
  destruct (acceptsUrl url) eqn:Hok.
  - rewrite (accepted_resolution n _ Hok). simpl.
    unfold firstResolve, imageResolve.
    destruct (n (toString url)) as [ t' c | t' | ]; simpl.
    + unfold timeoutMs. destruct (N.ltb_spec t' 5000); simpl;
        [ | discriminate ].
      destruct c; simpl; try discriminate.
      intros [= <- <-]. eauto.
    + destruct (t' <? timeoutMs)%N; discriminate.
    + discriminate.
  - rewrite (refused_resolution n _ Hok). discriminate.
Qed.

Lemma stored_payload_origin (n : network) (valid : list ItemObject)
  (stores : list (time * propertyKey * option jsstring))
  (k : propertyKey) (img : jsstring) :
  joinAll (startResolutions n valid) = AllSettled stores ->
  storeAll stores !! k = Some (Some img) ->
  exists item t body,
    In item valid /\ wantsImage item = true
    /\ k = toPropertyKey (id item)
    /\ img = lit "data:" ++ body
    /\ n (toString (imagem item)) = Loads t (Encoded body)
    /\ (t < 5000)%N.
Proof.
  intros Hj Hc.
  destruct (storeAll_lookup _ _ _ Hc) as (t & Hin).
  destruct (joinAll_In _ _ _ _ _ Hj Hin) as (r & Hr & Hs).
  destruct (startResolutions_In _ _ _ _ Hr) as (item & Hi & Hw & Hk & ->).
  destruct (payload_origin _ _ _ _ Hs) as (body & -> & Hload & Ht).
  exists item, t, body. auto 8.
Qed.

Lemma cachedImage_Some (cache : imageCacheT) (k : propertyKey)
  (img : jsstring) :
  cachedImage cache k = Some img -> cache !! k = Some (Some img).
Proof.
  unfold cachedImage. destruct (cache !! k) as [ [ d | ] | ]; try discriminate.
  destruct (isEmptyString d); [ discriminate | ]. now intros [= ->].
Qed.

(** Whichever way the call ends, its trace is the creation of the
    document, the requests, the logo if jsPDF accepts it, the header,
    the table, thumbnails that jsPDF accepted, and then only plain
    drawing and the save. *)
Lemma generatePDF_traceOf (decodes : decoder) (h : host)
  (items : option (list entry)) (client : ClientInfo) :
  validItems items <> [] ->
  exists stores t v drawn rest,
    joinAll (startResolutions (net h) (validItems items)) = AllSettled stores
    /\ settled (getBase64ImageFromURL (net h) (JString logoUrl))
       = Fulfilled t v
    /\ (forall o, In o drawn ->
                  In o (thumbnails h (validItems items) stores)
                  /\ drawable decodes o = true)
    /\ (forall o, In o rest ->
                  isPlainDrawing o = true \/ o = Save (fileName client))
    /\ traceOf (generatePDF decodes h items client)
       = NewDocument
         :: requestsOf (startResolutions (net h) (validItems items))
            ++ [Request logoUrl] ++ logoOps decodes v
            ++ headerOps h client
            ++ [AutoTable 65 tableHead (List.map tableRow (validItems items))]
            ++ drawn ++ rest.
Proof.
  intros Hne.
  destruct (generatePDF_trace decodes h items client Hne)
    as (stores & t & v & Hj & Hl & H).
  exists stores, t, v.
  destruct (forallb (drawable decodes) _) eqn:Hall.
  - exists (thumbnails h (validItems items) stores),
           (footerOps (layout h (List.map tableRow (validItems items)))
              (pageHeight h) (totalPrice (validItems items))
            ++ [Save (fileName client)]).
    split; [ exact Hj | ]. split; [ exact Hl | ]. split; [ | split ].
    + intros o Ho. split; [ exact Ho | ].
      rewrite List.forallb_forall in Hall. apply Hall, Ho.
    + intros o Ho. apply List.in_app_or in Ho as [ Ho | [ <- | [] ] ];
        [ left | now right ].
      pose proof (footerOps_plain
                    (layout h (List.map tableRow (validItems items)))
                    (pageHeight h) (totalPrice (validItems items))) as Hp.
      rewrite List.forallb_forall in Hp. apply Hp, Ho.
    + rewrite H. cbn [traceOf]. f_equal.
      repeat rewrite <- List.app_assoc. reflexivity.
  - destruct H as (drawn & rest & data & x & y & w & hh & H & E & Hd & _).
    exists drawn, [].
    split; [ exact Hj | ]. split; [ exact Hl | ]. split; [ | split ].
    + intros o Ho. split.
      * rewrite E. apply List.in_or_app. now left.
      * rewrite List.forallb_forall in Hd. apply Hd, Ho.
    + intros o [].
    + rewrite H. reflexivity.
Qed.

Lemma Returned_inj (a b : list op) : Returned a = Returned b -> a = b.
Proof. now intros [= ->]. Qed.

Lemma generatePDF_nothing_valid (decodes : decoder) (h : host)
  (items : option (list entry)) (client : ClientInfo) :
  validItems items = [] ->
  generatePDF decodes h items client = Returned [Alert emptyCartNotice].
Proof. intros Hv. unfold generatePDF. rewrite Hv. reflexivity. Qed.

(** X3.  Every image put into the document, thumbnail or logo, whether
    the call runs to its end or raises on the way, is a data: URL that
    the canvas produced for an image the network delivered within the
    five seconds, for the address of the logo or for the image reference
    of a valid item; and jsPDF accepted it.  Nothing taken from the
    items themselves is ever drawn as an image. *)
Theorem images_come_from_the_canvas (decodes : decoder) (h : host)
  (items : option (list entry)) (client : ClientInfo)
  (d : jsstring) (x y w hh : Q) :
  In (AddImage d x y w hh) (traceOf (generatePDF decodes h items client)) ->
  exists src t body,
    d = lit "data:" ++ body
    /\ net h src = Loads t (Encoded body)
    /\ (t < 5000)%N
    /\ decodes d = true
    /\ (src = logoUrl
        \/ exists item,
             In item (validItems items) /\ wantsImage item = true
             /\ src = toString (imagem item)).
Proof.
  intros Hin.
  assert (validItems items = [] \/ validItems items <> []) as [ Hv | Hne ]
      by (destruct (validItems items); [ left | right ]; congruence).
  - rewrite (generatePDF_nothing_valid decodes h items client Hv) in Hin.
    destruct Hin as [ H | [] ]. discriminate H.
  - destruct (generatePDF_traceOf decodes h items client Hne)
      as (stores & t & v & drawn & rest & Hj & Hl & Hdrawn & Hrest & E).
    rewrite E in Hin. clear E.
    destruct Hin as [ H | Hin ]; [ discriminate H | ].
    apply List.in_app_or in Hin as [ Hin | Hin ].
    { destruct (requestsOf_ops _ _ Hin) as (_ & _ & ? & _ & _ & H).
      discriminate H. }
    apply List.in_app_or in Hin as [ [ H | [] ] | Hin ]; [ discriminate H | ].
    apply List.in_app_or in Hin as [ Hin | Hin ].
    { destruct (logoOps_ops _ _ _ Hin) as (d' & -> & _ & Hd & [= -> _ _ _ _]).
      destruct (payload_origin _ _ _ _ Hl) as (body & -> & Hload & Ht).
      exists logoUrl, t, body. auto 6. }
    apply List.in_app_or in Hin as [ Hin | Hin ].
    { pose proof (headerOps_plain h client) as Hp.
      rewrite List.forallb_forall in Hp. apply Hp in Hin. discriminate Hin. }
    apply List.in_app_or in Hin as [ [ H | [] ] | Hin ]; [ discriminate H | ].
    apply List.in_app_or in Hin as [ Hin | Hin ].
    + destruct (Hdrawn _ Hin) as [Hth Hd].
      apply List.in_flat_map in Hth as (data & _ & Hth).
      destruct (hookResult_ops _ _ _ _ Hth)
        as (item & img & x' & y' & [= -> _ _ _ _] & _ & _ & Hc).
      apply cachedImage_Some in Hc.
      destruct (stored_payload_origin _ _ _ _ _ Hj Hc)
        as (owner & t' & body & Hown & Hw & _ & -> & Hload & Ht).
      exists (toString (imagem owner)), t', body. eauto 10.
    + destruct (Hrest _ Hin) as [ H | H ]; discriminate H.
Qed.

Lemma images_come_from_the_canvas_witness :
  exists src t body,
    lit "data:image/png;base64,iVBORw0KGgo=" = lit "data:" ++ body
    /\ promptNet src = Loads t (Encoded body)
    /\ (t < 5000)%N.
Proof.
  destruct (images_come_from_the_canvas acceptsAll promptHost
              (Some [Object (pictured 7)]) joao
              (lit "data:image/png;base64,iVBORw0KGgo=") 15 10 35 12)
    as (src & t & body & H1 & H2 & H3 & _).
  - cbv [generatePDF]. simpl. do 3 right. left. reflexivity.
  - exists src, t, body. auto.
Defined.

(** ** The cache after the join *)

Lemma insertByTime_In_rev (s x : time * propertyKey * option jsstring)
  (l : list (time * propertyKey * option jsstring)) :
  x = s \/ In x l -> In x (insertByTime s l).
Proof.
  induction l as [ | s' l IH ]; simpl.
  - intros [ -> | [] ]. now left.
  - destruct (fst (fst s) <? fst (fst s'))%N; simpl.
    + intros [ -> | H ]; [ now left | now right ].
    + intros [ -> | [ -> | H ] ].
      * right. apply IH. now left.
      * now left.
      * right. apply IH. now right.
Qed.

Lemma inSettlingOrder_In_rev (x : time * propertyKey * option jsstring)
  (l : list (time * propertyKey * option jsstring)) :
  In x l -> In x (inSettlingOrder l).
Proof.
  unfold inSettlingOrder.
  assert (forall sorted,
            In x sorted \/ In x l ->
            In x (fold_left (fun sorted s => insertByTime s sorted) l sorted))
    as H.
  { induction l as [ | s l IH ]; intros sorted; simpl.
    - intros [ H | [] ]. exact H.
    - intros [ H | [ -> | H ] ]; apply IH.
      + left. apply insertByTime_In_rev. now right.
      + left. apply insertByTime_In_rev. now left.
      + now right. }
  intros Hx. apply H. now right.
Qed.

Lemma stores_lookup_rev (l : list (time * propertyKey * option jsstring))
  (cache : imageCacheT) (k : propertyKey) :
  is_Some (cache !! k) \/ (exists t v, In (t, k, v) l) ->
  is_Some (fold_left (fun cache s => <[snd (fst s) := snd s]> cache) l cache
           !! k).
Proof.
  revert cache. induction l as [ | [[t' k'] v'] l IH ]; intros cache; simpl.
  - intros [ H | (_ & _ & []) ]. exact H.
  - intros H. apply IH.
    destruct (decide (k' = k)) as [ -> | Hne ].
    + left. rewrite lookup_insert_eq. eauto.
    + destruct H as [ H | (t & v & [ [= _ E _] | H ]) ].
      * left. rewrite lookup_insert_ne by exact Hne. exact H.
      * contradiction.
      * right. eauto.
Qed.

Lemma joinAll_In_rev (rs : list (propertyKey * resolution))
  (stores : list (time * propertyKey * option jsstring))
  (k : propertyKey) (r : resolution) :
  joinAll rs = AllSettled stores -> In (k, r) rs ->
  exists t v, In (t, k, v) stores /\ settled r = Fulfilled t v.
Proof.
  revert stores. induction rs as [ | [k' r'] rs IH ]; intros stores; simpl.
  - intros _ [].
  - destruct (settled r') as [ t' v' | e | ] eqn:Hr;
      destruct (joinAll rs) as [ stores' | e' | ]; try discriminate.
    intros [= <-] [ [= -> ->] | Hin ].
    + exists t', v'. split; [ now left | exact Hr ].
    + destruct (IH _ eq_refl Hin) as (t & v & H1 & H2).
      exists t, v. split; [ now right | exact H2 ].
Qed.

Lemma startResolutions_In_rev (n : network) (valid : list ItemObject)
  (item : ItemObject) :
  In item valid -> wantsImage item = true ->
  In (toPropertyKey (id item), getBase64ImageFromURL n (imagem item))
     (startResolutions n valid).
Proof.
  intros Hin Hw. unfold startResolutions. apply List.in_flat_map.
  exists item. split; [ exact Hin | ]. rewrite Hw. now left.
Qed.

(** X4.  After the join the cache has an entry under a key exactly when some
    item with an id and an image reference has that key, and the entry
    is what the resolver gave for such an item: an item without image
    reference gets no entry of its own. *)
Theorem cache_matches_resolutions (n : network) (valid : list ItemObject)
  (stores : list (time * propertyKey * option jsstring)) (k : propertyKey) :
  joinAll (startResolutions n valid) = AllSettled stores ->
  (is_Some (storeAll stores !! k) <->
   exists item,
     In item valid /\ wantsImage item = true /\ toPropertyKey (id item) = k)
  /\ (forall v,
        storeAll stores !! k = Some v ->
        exists item t,
          In item valid /\ wantsImage item = true
          /\ toPropertyKey (id item) = k
          /\ settled (getBase64ImageFromURL n (imagem item)) = Fulfilled t v).
Proof.
  intros Hj.
  assert (forall v,
            storeAll stores !! k = Some v ->
            exists item t,
              In item valid /\ wantsImage item = true
              /\ toPropertyKey (id item) = k
              /\ settled (getBase64ImageFromURL n (imagem item))
                 = Fulfilled t v) as Hfrom.
  { intros v Hc.
    destruct (storeAll_lookup _ _ _ Hc) as (t & Hin).
    destruct (joinAll_In _ _ _ _ _ Hj Hin) as (r & Hr & Hs).
    destruct (startResolutions_In _ _ _ _ Hr) as (item & Hi & Hw & Hk & ->).
    exists item, t. auto. }
  split; [ split | exact Hfrom ].
  - intros (v & Hc). destruct (Hfrom v Hc) as (item & _ & ? & ? & ? & _).
    eauto.
  - intros (item & Hi & Hw & <-).
    pose proof (startResolutions_In_rev n valid item Hi Hw) as Hr.
    destruct (joinAll_In_rev _ _ _ _ Hj Hr) as (t & v & Hin & _).
    unfold storeAll. apply stores_lookup_rev. right.
    exists t, v. apply inSettlingOrder_In_rev, Hin.
Qed.

Lemma cache_matches_resolutions_witness :
  is_Some (storeAll [(100%N, toPropertyKey (Some (Num 7)),
                      Some (lit "data:image/png;base64,iVBORw0KGgo="))]
           !! toPropertyKey (Some (Num 7)))
  /\ ~ is_Some (storeAll [(100%N, toPropertyKey (Some (Num 7)),
                           Some (lit "data:image/png;base64,iVBORw0KGgo="))]
                !! toPropertyKey (Some (Num 1))).
Proof.
  split.
  - apply (cache_matches_resolutions promptNet
             [statue 1 (JNumber (Num 50)); pictured 7]); [ reflexivity | ].
    exists (pictured 7). split; [ right; now left | split; reflexivity ].
  - intros H.
    apply (cache_matches_resolutions promptNet
             [statue 1 (JNumber (Num 50)); pictured 7]) in H;
      [ | reflexivity ].
    destruct H as (item & [ <- | [ <- | [] ] ] & Hw & Hk); discriminate.
Defined.

(** ** The table body *)

(** X5.  The table gets one row per object element of [items], in the order
    of [items]; null, undefined and primitive elements give no row.
    Every row has six cells, the first one empty (the thumbnail is drawn
    over it by the hook).  The table is handed over whatever jsPDF
    accepts, also in a call that raises later. *)
Theorem table_has_one_row_per_object (h : host) (l : list entry)
  (client : ClientInfo) :
  objectsOf l <> [] ->
  exists trace,
    generatePDF acceptsAll h (Some l) client = Returned trace
    /\ In (AutoTable 65 tableHead (List.map tableRow (objectsOf l))) trace
    /\ List.length (List.map tableRow (objectsOf l))
       = List.length (List.filter
                        (fun e => match e with
                                  | Object _ => true
                                  | Primitive _ => false
                                  end) l)
    /\ Forall (fun row => List.length row = 6%nat /\ List.hd_error row
                                                    = Some (Literal []))
         (List.map tableRow (objectsOf l))
    /\ (forall decodes,
          In (AutoTable 65 tableHead (List.map tableRow (objectsOf l)))
             (traceOf (generatePDF decodes h (Some l) client))).
Proof.
  intros Hne. rewrite <- validItems_objects in *.
  destruct (generatePDF_accepting_trace h (Some l) client Hne)
    as (stores & t & v & _ & _ & ->).
  eexists. split; [ reflexivity | ]. split; [ | split; [ | split ] ].
  4:{ intros decodes.
      destruct (generatePDF_traceOf decodes h (Some l) client Hne)
        as (? & ? & ? & ? & ? & _ & _ & _ & _ & ->).
      right. do 4 (apply List.in_or_app; right). apply List.in_or_app. left.
      now left. }
  - right. apply List.in_or_app. left.
    do 4 (apply List.in_or_app; right). apply List.in_or_app. left.
    now left.
  - rewrite List.length_map, validItems_objects. unfold objectsOf.
    induction l as [ | [ v' | it ] l' IH ]; simpl; [ reflexivity | | ].
    + destruct (decide (objectsOf l' = [])) as [ E | E ].
      * unfold objectsOf in E. rewrite E.
        clear -E. induction l' as [ | [ ? | ? ] l' IH ];
          [ reflexivity | exact (IH E) | discriminate E ].
      * apply IH. rewrite validItems_objects. exact E.
    + f_equal. clear. induction l' as [ | [ ? | ? ] l' IH ]; simpl;
        [ reflexivity | exact IH | now f_equal ].
  - apply Forall_forall. intros row Hrow.
    apply list_elem_of_In, List.in_map_iff in Hrow as (item & <- & _).
    split; reflexivity.
Qed.

Lemma table_has_one_row_per_object_witness :
  exists trace,
    generatePDF acceptsAll quietHost
      (Some [Primitive JNull; Object (pictured 7);
             Primitive (JString (lit "x")); Object (statue 1 JUndefined)])
      anonymous = Returned trace
    /\ In (AutoTable 65 tableHead
             [tableRow (pictured 7); tableRow (statue 1 JUndefined)]) trace.
Proof.
  destruct (table_has_one_row_per_object quietHost
              [Primitive JNull; Object (pictured 7);
               Primitive (JString (lit "x")); Object (statue 1 JUndefined)]
              anonymous) as (trace & H1 & H2 & _); [ discriminate | ].
  exists trace. split; [ exact H1 | exact H2 ].
Defined.

(** ** More on the file name *)

Lemma orDefault_not_empty (o : option jsstring) (fallback : jsstring) :
  isEmptyString fallback = false -> isEmptyString (orDefault o fallback) = false.
Proof.
  intros H. unfold orDefault.
  destruct o as [ s | ]; [ | exact H ].
  destruct (isEmptyString s) eqn:E; [ exact H | exact E ].
Qed.

Lemma substitute_twice (l : jsstring) :
  List.map (fun c => if isAlnum c then c else underscore)
    (List.map (fun c => if isAlnum c then c else underscore) l)
  = List.map (fun c => if isAlnum c then c else underscore) l.
Proof.
  rewrite List.map_map. apply List.map_ext. intros c.
  destruct (isAlnum c) eqn:E; [ now rewrite E | reflexivity ].
Qed.

(** X6.  The sanitized client name is never empty and has at most 30 code
    units, so the file name has between 15 and 44; and sanitizing is
    idempotent: a client whose name is already a sanitized name keeps it
    unchanged. *)
Theorem sanitized_name_is_stable (client : ClientInfo) :
  (1 <= List.length (cleanClientName client) <= 30)%nat
  /\ (15 <= List.length (fileName client) <= 44)%nat
  /\ cleanClientName {| name := Some (cleanClientName client);
                        phone := phone client;
                        date := date client |}
     = cleanClientName client.
Proof.
  assert (isEmptyString (orDefault (name client) (lit "Cliente")) = false)
    as Hbase by (apply orDefault_not_empty; reflexivity).
  assert (1 <= List.length (cleanClientName client) <= 30)%nat as Hlen.
  { unfold cleanClientName.
    rewrite List.length_firstn, List.length_map.
    destruct (orDefault (name client) (lit "Cliente"));
      [ discriminate | cbn [List.length]; lia ]. }
  split; [ exact Hlen | ]. split.
  - unfold fileName. rewrite !List.length_app.
    change (List.length (lit "Orcamento_")) with 10%nat.
    change (List.length (lit ".pdf")) with 4%nat. lia.
  - assert (isEmptyString (cleanClientName client) = false) as Hne.
    { destruct (cleanClientName client); [ simpl in Hlen; lia | reflexivity ]. }
    unfold cleanClientName at 1. simpl name. unfold orDefault at 1.
    rewrite Hne. unfold cleanClientName.
    rewrite <- List.firstn_map, substitute_twice, List.firstn_firstn.
    reflexivity.
Qed.

(** * Further properties of the cart and the catalogue *)

Section AppFacts.

Import Cart App.
Local Open Scope Q_scope.

Lemma sameId_refl (a : Q) : sameId a a = true.
Proof. apply Qeq_bool_iff. reflexivity. Qed.

Lemma sameId_sym (a b : Q) : sameId a b = sameId b a.
Proof.
  unfold sameId. destruct (Qeq_bool a b) eqn:E1, (Qeq_bool b a) eqn:E2;
    try reflexivity.
  - apply Qeq_bool_iff in E1. apply Qeq_bool_neq in E2.
    elim E2. symmetry. exact E1.
  - apply Qeq_bool_iff in E2. apply Qeq_bool_neq in E1.
    elim E1. symmetry. exact E2.
Qed.

Lemma sameId_trans (a b c : Q) :
  sameId a b = true -> sameId b c = true -> sameId a c = true.
Proof.
  unfold sameId. rewrite !Qeq_bool_iff. intros -> ->. reflexivity.
Qed.

Lemma sameId_congr (a b c : Q) :
  sameId a b = true -> sameId c a = sameId c b.
Proof.
  intros H. destruct (sameId c a) eqn:E1, (sameId c b) eqn:E2;
    try reflexivity.
  - rewrite (sameId_trans c a b E1 H) in E2. discriminate.
  - rewrite sameId_sym in H. rewrite (sameId_trans c b a E2 H) in E1.
    discriminate.
Qed.

Lemma distinctIds_map {A} (idOf : A -> Q) (f : A -> A) (l : list A) :
  (forall x, idOf (f x) = idOf x) ->
  distinctIds idOf l -> distinctIds idOf (List.map f l).
Proof.
  intros Hf. induction l as [ | x l IH ]; simpl; [ trivial | ].
  intros [Hx Hl]. split; [ | exact (IH Hl) ].
  rewrite Hf. clear -Hx Hf.
  induction Hx as [ | y l Hy _ IH ]; simpl; constructor;
    [ now rewrite Hf | exact IH ].
Qed.

Lemma distinctIds_filter {A} (idOf : A -> Q) (keep : A -> bool) (l : list A) :
  distinctIds idOf l -> distinctIds idOf (List.filter keep l).
Proof.
  induction l as [ | x l IH ]; simpl; [ trivial | ].
  intros [Hx Hl]. destruct (keep x); simpl; [ | exact (IH Hl) ].
  split; [ | exact (IH Hl) ].
  clear -Hx. induction Hx as [ | y l Hy _ IH ]; simpl; [ constructor | ].
  destruct (keep y); [ constructor; assumption | exact IH ].
Qed.

Lemma distinctIds_snoc {A} (idOf : A -> Q) (l : list A) (x : A) :
  distinctIds idOf l ->
  Forall (fun y => sameId (idOf y) (idOf x) = false) l ->
  distinctIds idOf (l ++ [x]).
Proof.
  induction l as [ | y l IH ]; simpl.
  - intros _ _. split; [ constructor | trivial ].
  - intros [Hy Hl] Hx.
    apply Forall_cons in Hx as [Hyx Hx].
    split; [ | exact (IH Hl Hx) ].
    apply Forall_app. split; [ exact Hy | ].
    constructor; [ | constructor ].
    rewrite sameId_sym. exact Hyx.
Qed.

Lemma find_none_all (p : Product) (cart : list BudgetItem) :
  List.find (fun item => sameId (id (product item)) (id p)) cart = None ->
  Forall (fun item => sameId (id (product item)) (id p) = false) cart.
Proof.
  intros H. apply Forall_forall. intros item Hin.
  apply list_elem_of_In in Hin.
  exact (List.find_none _ _ H item Hin).
Qed.

Lemma step_distinct (cart : list BudgetItem) (a : action) :
  distinctIds (fun item => id (product item)) cart ->
  distinctIds (fun item => id (product item)) (step cart a).
Proof.
  intros H. destruct a as [ p | i | i | i ]; simpl.
  - unfold addItem.
    destruct (List.find _ cart) as [ existing | ] eqn:Hf.
    + apply distinctIds_map; [ | exact H ].
      intros x. destruct (sameId (id (product x)) (id p)); reflexivity.
    + apply distinctIds_snoc; [ exact H | ].
      apply (find_none_all p cart Hf).
  - apply (distinctIds_map (fun item => id (product item))); [ | exact H ].
    intros x. destruct (sameId (id (product x)) i); reflexivity.
  - apply (distinctIds_map (fun item => id (product item))); [ | exact H ].
    intros x. destruct (sameId (id (product x)) i); reflexivity.
  - apply distinctIds_filter, H.
Qed.

End AppFacts.

(** X7.  No cart built with the add, plus, minus and bin buttons ever has two
    lines with the same product id: adding a product that is already
    there changes its line instead of appending one. *)
Theorem cart_ids_stay_distinct (actions : list Cart.action) :
  App.distinctIds (fun item => Cart.id (Cart.product item))
    (Cart.cartAfter actions).
Proof.
  unfold Cart.cartAfter.
  assert (forall cart,
            App.distinctIds (fun item => Cart.id (Cart.product item)) cart ->
            App.distinctIds (fun item => Cart.id (Cart.product item))
              (fold_left Cart.step actions cart)) as H.
  { induction actions as [ | a actions IH ]; intros cart Hc; simpl;
      [ exact Hc | ].
    apply IH, step_distinct, Hc. }
  apply H. exact I.
Qed.

Section CartRoundTrips.

Import Cart App.
Local Open Scope Q_scope.

Lemma find_absent (p : Product) (cart : list BudgetItem) :
  Forall (fun item => sameId (id (product item)) (id p) = false) cart ->
  List.find (fun item => sameId (id (product item)) (id p)) cart = None.
Proof.
  induction 1 as [ | item cart Hitem _ IH ]; simpl; [ reflexivity | ].
  rewrite Hitem. exact IH.
Qed.

Lemma find_present (p : Product) (cart : list BudgetItem) (item : BudgetItem) :
  In item cart -> sameId (id (product item)) (id p) = true ->
  exists existing,
    List.find (fun item => sameId (id (product item)) (id p)) cart
    = Some existing.
Proof.
  intros Hin Hsame.
  destruct (List.find _ cart) as [ existing | ] eqn:Hf; [ eauto | ].
  rewrite (List.find_none _ _ Hf item Hin) in Hsame. discriminate.
Qed.

Lemma filter_keeps_all {A} (keep : A -> bool) (l : list A) :
  Forall (fun x => keep x = true) l -> List.filter keep l = l.
Proof.
  induction 1 as [ | x l Hx _ IH ]; simpl; [ reflexivity | ].
  rewrite Hx, IH. reflexivity.
Qed.

End CartRoundTrips.

(** X8.  The bin button removes every line of that product and nothing else;
    in particular, removing a product just added to a cart that did not
    have it gives that cart back. *)
Theorem remove_undoes_add (p : Cart.Product) (cart : list Cart.BudgetItem) :
  Forall (fun item =>
            Cart.sameId (Cart.id (Cart.product item)) (Cart.id p) = false)
    cart ->
  Cart.removeItem (Cart.id p) (Cart.addItem p cart) = cart
  /\ Forall (fun item =>
               Cart.sameId (Cart.id (Cart.product item)) (Cart.id p) = false)
       (Cart.removeItem (Cart.id p) (Cart.addItem p cart)).
Proof.
  intros Habsent.
  assert (Cart.removeItem (Cart.id p) (Cart.addItem p cart) = cart) as E.
  { unfold Cart.addItem. rewrite (find_absent p cart Habsent).
    unfold Cart.removeItem. rewrite List.filter_app. simpl.
    rewrite sameId_refl. simpl. rewrite List.app_nil_r.
    apply filter_keeps_all.
    eapply Forall_impl; [ exact Habsent | ].
    intros item H. simpl in H. now rewrite H. }
  split; [ exact E | ]. rewrite E. exact Habsent.
Qed.

Lemma remove_undoes_add_witness :
  Cart.removeItem 7 (Cart.addItem
                       {| Cart.id := 7; Cart.nome := lit "Anjo";
                          Cart.cm := lit "15"; Cart.valor := 20;
                          Cart.imagem := None |} twoSaints) = twoSaints.
Proof.
  apply (remove_undoes_add
           {| Cart.id := 7; Cart.nome := lit "Anjo"; Cart.cm := lit "15";
              Cart.valor := 20; Cart.imagem := None |} twoSaints).
  repeat constructor.
Defined.

(** X9.  Adding a product that the cart already has uses nothing of the
    product but its id: the line keeps the name, picture and unit price
    it was first added with, whatever the catalogue says now, and only
    its quantity and total change. *)
Theorem add_existing_keeps_the_line_data (p p' : Cart.Product)
  (cart : list Cart.BudgetItem) (item : Cart.BudgetItem) :
  In item cart ->
  Cart.sameId (Cart.id (Cart.product item)) (Cart.id p) = true ->
  Cart.sameId (Cart.id p) (Cart.id p') = true ->
  Cart.addItem p' cart = Cart.addItem p cart
  /\ List.map Cart.product (Cart.addItem p cart) = List.map Cart.product cart.
Proof.
  intros Hin Hsame Hpp.
  assert (forall x : Cart.BudgetItem,
            Cart.sameId (Cart.id (Cart.product x)) (Cart.id p')
            = Cart.sameId (Cart.id (Cart.product x)) (Cart.id p)) as Hext.
  { intros x. symmetry. apply sameId_congr, Hpp. }
  destruct (find_present p cart item Hin Hsame) as (existing & Hf).
  assert (Cart.sameId (Cart.id (Cart.product item)) (Cart.id p') = true)
    as Hsame' by (rewrite Hext; exact Hsame).
  destruct (find_present p' cart item Hin Hsame') as (existing' & Hf').
  unfold Cart.addItem. rewrite Hf, Hf'. split.
  - apply List.map_ext. intros x. rewrite Hext. reflexivity.
  - rewrite List.map_map. rewrite <- (List.map_id cart) at 2.
    rewrite List.map_map. apply List.map_ext. intros x.
    destruct (Cart.sameId (Cart.id (Cart.product x)) (Cart.id p));
      reflexivity.
Qed.

Lemma add_existing_keeps_the_line_data_witness :
  Cart.addItem dearerSaint twoSaints = Cart.addItem saint twoSaints
  /\ List.map Cart.product (Cart.addItem saint twoSaints) = [saint].
Proof.
  apply (add_existing_keeps_the_line_data saint dearerSaint twoSaints
           {| Cart.product := saint; Cart.quantity := 2; Cart.total := 99 |}).
  - now left.
  - reflexivity.
  - reflexivity.
Defined.

Section Quantities.

Import Cart App.
Local Open Scope Q_scope.

Lemma plus_then_minus (item : BudgetItem) :
  consistent item ->
  sameLine
    {| product := product item;
       quantity := Qmax 1 (Qmax 1 (quantity item + 1) + -1);
       total := Qmax 1 (Qmax 1 (quantity item + 1) + -1)
                * valor (product item) |}
    item.
Proof.
  intros (Ht & _ & Hq). unfold sameLine. simpl.
  assert (Qmax 1 (Qmax 1 (quantity item + 1) + -1) == quantity item) as E.
  { destruct (Q.max_spec 1 (quantity item + 1)) as [ [H1 E1] | [H1 E1] ];
      destruct (Q.max_spec 1 (Qmax 1 (quantity item + 1) + -1))
        as [ [H2 E2] | [H2 E2] ]; lra. }
  split; [ reflexivity | ]. split; [ exact E | ].
  rewrite E, Ht. reflexivity.
Qed.

Lemma minus_at_one (item : BudgetItem) :
  consistent item -> quantity item == 1 ->
  sameLine
    {| product := product item;
       quantity := Qmax 1 (quantity item + -1);
       total := Qmax 1 (quantity item + -1) * valor (product item) |}
    item.
Proof.
  intros (Ht & _ & _) H1. unfold sameLine. simpl.
  assert (Qmax 1 (quantity item + -1) == quantity item) as E.
  { destruct (Q.max_spec 1 (quantity item + -1)) as [ [H E] | [H E] ]; lra. }
  split; [ reflexivity | ]. split; [ exact E | ].
  rewrite E, Ht. reflexivity.
Qed.

Lemma sameLine_refl (item : BudgetItem) : sameLine item item.
Proof. unfold sameLine. repeat split; reflexivity. Qed.

End Quantities.

(** X10.  On a cart whose lines are consistent, pressing plus and then minus on
    a product shows the cart as it was; and minus on a line whose
    quantity is 1 changes nothing: the quantity stops at 1, the line is
    not removed. *)
Theorem plus_minus_round_trip (i : Q) (cart : list Cart.BudgetItem) :
  Forall Cart.consistent cart ->
  Forall2 App.sameLine
    (Cart.updateQuantity i (-1) (Cart.updateQuantity i 1 cart)) cart
  /\ (Forall (fun item => (Cart.quantity item == 1)%Q) cart ->
      Forall2 App.sameLine (Cart.updateQuantity i (-1) cart) cart).
Proof.
  intros Hc. split.
  - unfold Cart.updateQuantity. rewrite List.map_map.
    induction Hc as [ | item cart Hitem _ IH ]; simpl; constructor;
      [ | exact IH ].
    destruct (Cart.sameId (Cart.id (Cart.product item)) i) eqn:E; simpl.
    + rewrite E. apply plus_then_minus, Hitem.
    + rewrite E. apply sameLine_refl.
  - intros H1. unfold Cart.updateQuantity.
    induction Hc as [ | item cart Hitem _ IH ]; simpl; constructor.
    + apply Forall_cons in H1 as [H1 _].
      destruct (Cart.sameId (Cart.id (Cart.product item)) i);
        [ apply minus_at_one; assumption | apply sameLine_refl ].
    + apply IH. apply Forall_cons in H1 as [_ H1]. exact H1.
Qed.

Lemma plus_minus_round_trip_witness :
  Forall2 App.sameLine
    (Cart.updateQuantity 12 (-1) (Cart.updateQuantity 12 1 twoSaints))
    twoSaints.
Proof.
  apply (plus_minus_round_trip 12 twoSaints).
  constructor; [ | constructor ].
  unfold Cart.consistent, Cart.isInteger. simpl.
  split; [ reflexivity | split; [ reflexivity | discriminate ] ].
Defined.

Section Subtotal.

Import Cart App.
Local Open Scope Q_scope.

Lemma validItems_of_cart (cart : list BudgetItem) :
  validItems (Some (List.map toEntry cart))
  = List.map (fun item =>
                Build_ItemObject
                  (Some (Num (id (product item))))
                  (JString (nome (product item)))
                  (JString (cm (product item)))
                  (JNumber (Num (valor (product item))))
                  (match imagem (product item) with
                   | Some url => JString url
                   | None => JUndefined
                   end)
                  (JNumber (Num (quantity item)))
                  (JNumber (Num (total item))))
      cart.
Proof.
  rewrite validItems_objects. unfold objectsOf.
  induction cart as [ | item cart IH ]; simpl; [ reflexivity | ].
  now rewrite IH.
Qed.

Lemma totalBudget_from (cart : list BudgetItem) (acc : Q) :
  fold_left (fun acc item => acc + total item) cart acc
  == acc + fold_right (fun item s => total item + s) 0 cart.
Proof.
  revert acc. induction cart as [ | item cart IH ]; intros acc; simpl.
  - ring.
  - rewrite IH. ring.
Qed.

Lemma cart_aggregate (cart : list BudgetItem) :
  claimedAggregate (validItems (Some (List.map toEntry cart)))
  == totalBudget cart.
Proof.
  rewrite validItems_of_cart. unfold totalBudget.
  rewrite totalBudget_from. unfold claimedAggregate.
  induction cart as [ | item cart IH ]; simpl; [ ring | ].
  rewrite IH. ring.
Qed.

End Subtotal.

Lemma cart_totals_numeric (cart : list Cart.BudgetItem) :
  Forall (fun item => numericOrFalsy (total item) = true)
    (validItems (Some (List.map Cart.toEntry cart))).
Proof.
  rewrite validItems_of_cart. apply Forall_forall. intros o Ho.
  apply list_elem_of_In, List.in_map_iff in Ho as (item & <- & _).
  reflexivity.
Qed.

(** X11.  The total printed in the summary box of the document is the subtotal
    the application shows under the cart: the sum of the totals of the
    lines.  A jsPDF that accepts every payload draws it, and so does
    every call that runs to its end, whatever jsPDF accepts. *)
Theorem document_total_is_the_subtotal (h : host)
  (cart : list Cart.BudgetItem) (client : ClientInfo) :
  cart <> [] ->
  exists q trace,
    (q == App.totalBudget cart)%Q
    /\ generatePDF acceptsAll h (Some (List.map Cart.toEntry cart)) client
       = Returned trace
    /\ In (Text (Currency (JNumber (Num q))) 190
             (footerY
                (layout h
                   (List.map tableRow
                      (validItems (Some (List.map Cart.toEntry cart)))))
                (pageHeight h) + 9)%Q
             AlignRight)
          trace
    /\ (forall decodes trace',
          generatePDF decodes h (Some (List.map Cart.toEntry cart)) client
          = Returned trace' ->
          In (Text (Currency (JNumber (Num q))) 190
                (footerY
                   (layout h
                      (List.map tableRow
                         (validItems (Some (List.map Cart.toEntry cart)))))
                   (pageHeight h) + 9)%Q
                AlignRight)
             trace').
Proof.
  intros Hne.
  assert (validItems (Some (List.map Cart.toEntry cart)) <> []) as Hv.
  { rewrite validItems_of_cart. destruct cart; [ congruence | discriminate ]. }
  destruct (totalPrice_from _ 0 (cart_totals_numeric cart)) as (q & Hq & E).
  assert (totalPrice (validItems (Some (List.map Cart.toEntry cart)))
          = JNumber (Num q)) as Htotal by exact Hq.
  destruct (generatePDF_returns h _ client Hv) as (stores & fetched & _ & Hret).
  eexists q, _. split; [ | split; [ | split ] ].
  - rewrite E, cart_aggregate. ring.
  - exact Hret.
  - rewrite <- Htotal. eapply total_is_rendered; eassumption.
  - intros decodes trace' Hret'. rewrite <- Htotal.
    eapply total_is_rendered; eassumption.
Qed.

Lemma document_total_is_the_subtotal_witness :
  exists q trace,
    (q == 99)%Q
    /\ generatePDF acceptsAll quietHost (Some (List.map Cart.toEntry twoSaints))
         anonymous = Returned trace
    /\ In (Text (Currency (JNumber (Num q))) 190 (120 + 10 + 9)%Q AlignRight)
          trace.
Proof.
  destruct (document_total_is_the_subtotal quietHost twoSaints anonymous)
    as (q & trace & H1 & H2 & H3 & _); [ discriminate | ].
  exists q, trace. split; [ exact H1 | split; [ exact H2 | exact H3 ] ].
Defined.

(** ** The export button *)

(** X12.  With an empty cart the export button shows its own notice and
    does nothing else.  With any other cart it raises the busy flag,
    runs the composer and always lowers the flag again.  When jsPDF
    accepts every thumbnail, the document is created and saved once
    under the client's file name, and no alert is shown.  When jsPDF
    refuses one, the document is created but not saved, the error is
    logged and the failure notice is shown, before the flag is
    lowered. *)
Theorem export_button_resets_the_flag (decodes : decoder) (h : host)
  (cart : list Cart.BudgetItem) (client : ClientInfo) :
  (cart = [] ->
   App.handleExportPDF decodes h cart client
   = [App.Effect (Alert App.emptyBudgetNotice)])
  /\ (cart <> [] ->
      exists stores,
        joinAll (startResolutions (net h)
                   (validItems (Some (List.map Cart.toEntry cart))))
        = AllSettled stores
        /\ if forallb (drawable decodes)
                (thumbnails h (validItems (Some (List.map Cart.toEntry cart)))
                   stores)
           then exists body,
                  App.handleExportPDF decodes h cart client
                  = App.SetIsExporting true
                    :: App.Effect NewDocument
                    :: List.map App.Effect body
                    ++ [App.Effect (Save (fileName client));
                        App.SetIsExporting false]
                  /\ (forall msg, ~ In (Alert msg) body)
                  /\ (forall f, ~ In (Save f) body)
           else exists body,
                  App.handleExportPDF decodes h cart client
                  = App.SetIsExporting true
                    :: App.Effect NewDocument
                    :: List.map App.Effect body
                    ++ [App.ConsoleError;
                        App.Effect (Alert App.exportFailedNotice);
                        App.SetIsExporting false]
                  /\ (forall msg, ~ In (Alert msg) body)
                  /\ (forall f, ~ In (Save f) body)).
Proof.
  split.
  - intros ->. reflexivity.
  - intros Hne.
    assert (validItems (Some (List.map Cart.toEntry cart)) <> []) as Hv.
    { rewrite validItems_of_cart. destruct cart; [ congruence | discriminate ]. }
    destruct (generatePDF_ends decodes h _ client Hv) as (stores & Hj & H).
    exists stores. split; [ exact Hj | ].
    unfold App.handleExportPDF.
    destruct cart as [ | item cart ]; [ congruence | ].
    cbn [List.length Nat.eqb].
    destruct (forallb (drawable decodes) _).
    + destruct H as (body & -> & Hsave & _ & Halert).
      exists body. split; [ | split; assumption ].
      cbn [List.map List.app]. rewrite List.map_app.
      rewrite <- List.app_assoc. reflexivity.
    + destruct H as (body & data & x & y & w & hh & -> & _ & _
                     & Hsave & _ & Halert).
      exists body. split; [ | split; assumption ].
      reflexivity.
Qed.

Lemma export_button_resets_the_flag_witness :
  App.handleExportPDF acceptsAll quietHost [] anonymous
  = [App.Effect (Alert App.emptyBudgetNotice)]
  /\ (exists body,
        App.handleExportPDF acceptsAll quietHost twoSaints joao
        = App.SetIsExporting true
          :: App.Effect NewDocument
          :: List.map App.Effect body
          ++ [App.Effect (Save (lit "Orcamento_Jo_o_99__Ltda_.pdf"));
              App.SetIsExporting false])
  /\ (exists body,
        App.handleExportPDF refusesEmptyImage blankHost picturedSaints joao
        = App.SetIsExporting true
          :: App.Effect NewDocument
          :: List.map App.Effect body
          ++ [App.ConsoleError; App.Effect (Alert App.exportFailedNotice);
              App.SetIsExporting false]
        /\ (forall f, ~ In (Save f) body)).
Proof.
  split; [ | split ].
  - apply (export_button_resets_the_flag acceptsAll quietHost [] anonymous).
    reflexivity.
  - destruct (export_button_resets_the_flag acceptsAll quietHost twoSaints joao)
      as (_ & H). destruct H as (stores & Hj & H); [ discriminate | ].
    injection Hj as <-.
    destruct H as (body & H & _). exists body. exact H.
  - destruct (export_button_resets_the_flag refusesEmptyImage blankHost
                picturedSaints joao)
      as (_ & H). destruct H as (stores & Hj & H); [ discriminate | ].
    injection Hj as <-.
    destruct H as (body & H & _ & Hsave). exists body. split; assumption.
Defined.

(** ** The catalogue *)

Section Catalogue.

Import Cart App.
Local Open Scope Q_scope.

Lemma mathMax_bounds (others : list Q) (first : Q) :
  first <= mathMax first others
  /\ Forall (fun x => x <= mathMax first others) others.
Proof.
  unfold mathMax. revert first.
  induction others as [ | x others IH ]; intros first; simpl.
  - split; [ apply Qle_refl | constructor ].
  - destruct (IH (Qmax first x)) as [H1 H2]. split; [ | constructor ].
    + eapply Qle_trans; [ apply Q.le_max_l | exact H1 ].
    + eapply Qle_trans; [ apply Q.le_max_r | exact H1 ].
    + exact H2.
Qed.

Lemma below_is_different (a b : Q) : a <= b -> sameId a (b + 1) = false.
Proof.
  intros H. unfold sameId. apply not_true_iff_false.
  rewrite Qeq_bool_iff. intros E. lra.
Qed.

Lemma mathMax_least (others : list Q) (first bound : Q) :
  first < bound -> Forall (fun x => x < bound) others ->
  mathMax first others < bound.
Proof.
  unfold mathMax. revert first.
  induction others as [ | x others IH ]; intros first Hf Ho; simpl;
    [ exact Hf | ].
  apply Forall_cons in Ho as [Hx Ho].
  apply IH; [ | exact Ho ].
  apply Q.max_lub_lt; assumption.
Qed.

Lemma mathMax_integer (others : list Q) (first : Q) :
  isInteger first -> Forall isInteger others ->
  isInteger (mathMax first others).
Proof.
  unfold mathMax. revert first.
  induction others as [ | x others IH ]; intros first Hf Ho; simpl;
    [ exact Hf | ].
  apply Forall_cons in Ho as [Hx Ho].
  apply IH; [ | exact Ho ].
  apply isInteger_iff.
  destruct (Q.max_dec first x) as [ E | E ].
  - apply isInteger_iff in Hf as (z & Hz). exists z. now rewrite E.
  - apply isInteger_iff in Hx as (z & Hz). exists z. now rewrite E.
Qed.

(** One more than the largest of safe ids is computed exactly. *)
Lemma successor_is_exact (round : Q -> Q) (p : Product) (ps : list Product) :
  exactOnSafeIntegers round ->
  Forall (fun p => safeId (id p)) (p :: ps) ->
  round (mathMax (id p) (List.map id ps) + 1)
  == mathMax (id p) (List.map id ps) + 1.
Proof.
  intros Hround Hsafe. apply Forall_cons in Hsafe as [[Hi Hb] Hps].
  set (m := mathMax (id p) (List.map id ps)).
  assert (isInteger m) as Hm.
  { apply mathMax_integer; [ exact Hi | ].
    apply Forall_forall. intros x Hx.
    apply list_elem_of_In, List.in_map_iff in Hx as (p' & <- & Hp').
    rewrite Forall_forall in Hps.
    apply (Hps p'), list_elem_of_In, Hp'. }
  assert (m < safeLimit) as Hlt.
  { apply mathMax_least.
    - apply Qabs_Qlt_condition in Hb. tauto.
    - apply Forall_forall. intros x Hx.
      apply list_elem_of_In, List.in_map_iff in Hx as (p' & <- & Hp').
      rewrite Forall_forall in Hps.
      destruct (Hps p' (proj2 (list_elem_of_In _ _) Hp')) as [_ Hb'].
      apply Qabs_Qlt_condition in Hb'. tauto. }
  assert (- safeLimit < m) as Hgt.
  { eapply Qlt_le_trans; [ | apply mathMax_bounds ].
    apply Qabs_Qlt_condition in Hb. tauto. }
  apply Hround; [ apply isInteger_succ, Hm | ].
  apply Qabs_Qle_condition. split; [ lra | ].
  apply isInteger_iff in Hm as (z & Hz).
  rewrite Hz in Hlt |- *. unfold safeLimit in *.
  rewrite <- Zlt_Qlt in Hlt.
  change 1 with (inject_Z 1). rewrite <- inject_Z_plus, <- Zle_Qle. lia.
Qed.

Lemma newId_is_fresh (round : Q -> Q) (products : list Product) :
  exactOnSafeIntegers round ->
  Forall (fun p => safeId (id p)) products ->
  Forall (fun p =>
            sameId (id p)
              (id (List.hd {| id := 0; nome := []; cm := []; valor := 0;
                              imagem := None |}
                     (handleAddProduct round products))) = false)
    products.
Proof.
  intros Hround Hsafe.
  unfold handleAddProduct. simpl.
  destruct products as [ | p ps ]; [ constructor | ].
  pose proof (successor_is_exact round p ps Hround Hsafe) as E.
  destruct (mathMax_bounds (List.map id ps) (id p)) as [H1 H2].
  assert (forall a, a <= mathMax (id p) (List.map id ps) ->
                    sameId a (round (mathMax (id p) (List.map id ps) + 1))
                    = false) as Hbelow.
  { intros a Ha. unfold sameId. apply not_true_iff_false.
    rewrite Qeq_bool_iff, E. intros E'. lra. }
  constructor.
  - apply Hbelow, H1.
  - apply Forall_forall. intros x Hx.
    apply Hbelow.
    rewrite Forall_forall in H2. apply H2.
    apply list_elem_of_In. apply List.in_map. apply list_elem_of_In, Hx.
Qed.

End Catalogue.

(** X13.  A catalogue in which no two products share an id keeps that
    property when a product is edited without changing its id and when a
    product is deleted.  It keeps it when a product is added, provided
    the ids in use are integers below 2^53 in magnitude: one more than
    the largest is then a binary64 value, and is not in use. *)
Theorem catalogue_ids_stay_distinct (products : list Cart.Product) :
  App.distinctIds Cart.id products ->
  (forall round,
     App.exactOnSafeIntegers round ->
     Forall (fun p => App.safeId (Cart.id p)) products ->
     App.distinctIds Cart.id (App.handleAddProduct round products))
  /\ (forall i updates,
        App.setId updates = None ->
        App.distinctIds Cart.id (App.handleUpdateProduct i updates products))
  /\ (forall confirmed i cart,
        App.distinctIds Cart.id
          (fst (App.handleDeleteProduct confirmed i products cart))).
Proof.
  intros H. split; [ | split ].
  - intros round Hround Hsafe.
    pose proof (newId_is_fresh round products Hround Hsafe) as Hfresh.
    unfold App.handleAddProduct in *. simpl in *. split; assumption.
  - intros i updates Hu. unfold App.handleUpdateProduct.
    apply distinctIds_map; [ | exact H ].
    intros p. destruct (Cart.sameId (Cart.id p) i); [ | reflexivity ].
    unfold App.spread. simpl. rewrite Hu. reflexivity.
  - intros confirmed i cart. unfold App.handleDeleteProduct.
    destruct confirmed; simpl; [ apply distinctIds_filter, H | exact H ].
Qed.

Lemma catalogue_ids_stay_distinct_witness :
  App.distinctIds Cart.id (App.handleAddProduct roundBeyondSafe [saint])
  /\ List.map Cart.id (App.handleAddProduct roundBeyondSafe [saint])
     = [(12 + 1)%Q; 12%Q].
Proof.
  split; [ | reflexivity ].
  apply (catalogue_ids_stay_distinct [saint]).
  - split; [ constructor | exact I ].
  - intros q _ Hq. unfold roundBeyondSafe.
    apply Qle_bool_iff in Hq. rewrite Hq. reflexivity.
  - constructor; [ | constructor ].
    split; [ reflexivity | reflexivity ].
Defined.

(** The bound is needed: with the largest id at 2^53 the sum 2^53 + 1
    lies between two binary64 values and is rounded back to 2^53, so the
    new product gets an id that is in use. *)
Lemma ids_collide_beyond_safe :
  App.distinctIds Cart.id [farSaint]
  /\ List.map Cart.id (App.handleAddProduct roundBeyondSafe [farSaint])
     = [App.safeLimit; App.safeLimit]
  /\ ~ App.distinctIds Cart.id (App.handleAddProduct roundBeyondSafe [farSaint]).
Proof.
  split; [ split; [ constructor | exact I ] | ].
  split; [ reflexivity | ].
  intros [H _]. apply Forall_cons in H as [H _]. discriminate H.
Qed.

(** * Network traffic and geometry *)

Lemma requestsIn_app (a b : list op) :
  requestsIn (a ++ b) = requestsIn a ++ requestsIn b.
Proof. unfold requestsIn. apply List.flat_map_app. Qed.

Lemma requestsIn_none (l : list op) :
  (forall o, In o l -> forall src, o <> Request src) -> requestsIn l = [].
Proof.
  unfold requestsIn. induction l as [ | o l IH ]; intros H; simpl;
    [ reflexivity | ].
  rewrite IH by (intros o' Ho'; apply H; now right).
  destruct o; try reflexivity.
  exfalso. apply (H (Request src) (or_introl eq_refl) src). reflexivity.
Qed.

Lemma requestsIn_plain (l : list op) :
  forallb isPlainDrawing l = true -> requestsIn l = [].
Proof.
  intros Hp. apply requestsIn_none. intros o Ho src ->.
  rewrite List.forallb_forall in Hp. apply Hp in Ho. discriminate Ho.
Qed.

Lemma requestsIn_started (n : network) (valid : list ItemObject) :
  requestsIn (requestsOf (startResolutions n valid))
  = List.flat_map
      (fun item =>
         if wantsImage item && acceptsUrl (imagem item)
         then [toString (imagem item)]
         else [])
      valid.
Proof.
  unfold requestsOf, startResolutions.
  induction valid as [ | item valid IH ]; [ reflexivity | ].
  cbn [List.flat_map]. rewrite List.flat_map_app, requestsIn_app, IH.
  f_equal. destruct (wantsImage item); [ | reflexivity ].
  cbn [List.flat_map snd andb]. rewrite List.app_nil_r.
  destruct (acceptsUrl (imagem item)) eqn:Hok.
  - rewrite (accepted_resolution n _ Hok). reflexivity.
  - rewrite (refused_resolution n _ Hok). reflexivity.
Qed.

(** X14.  The network traffic of an export: one request for every item that
    has an id and an image reference beginning with http, in the order
    of the items (an address shared by two items is requested twice),
    then one for the logo; all of them before anything is drawn.  This
    is the traffic whatever jsPDF accepts, also of a call that raises
    while drawing. *)
Theorem export_requests (h : host) (items : option (list entry))
  (client : ClientInfo) :
  validItems items <> [] ->
  (exists drawn,
     generatePDF acceptsAll h items client
     = Returned (NewDocument
                 :: List.map Request (imageRequests (validItems items))
                 ++ drawn)
     /\ requestsIn drawn = [])
  /\ (forall decodes,
        exists drawn,
          traceOf (generatePDF decodes h items client)
          = NewDocument
            :: List.map Request (imageRequests (validItems items)) ++ drawn
          /\ requestsIn drawn = []).
Proof.
  intros Hne.
  assert (forall decodes,
            exists drawn,
              traceOf (generatePDF decodes h items client)
              = NewDocument
                :: List.map Request (imageRequests (validItems items)) ++ drawn
              /\ requestsIn drawn = []) as Hall.
  { intros decodes.
    destruct (generatePDF_traceOf decodes h items client Hne)
      as (stores & t & v & drawn & rest & _ & _ & Hdrawn & Hrest & ->).
    exists (logoOps decodes v
            ++ headerOps h client
            ++ [AutoTable 65 tableHead (List.map tableRow (validItems items))]
            ++ drawn ++ rest).
    split.
    - f_equal. unfold imageRequests.
      rewrite List.map_app, <- requestsIn_started with (n := net h).
      repeat rewrite <- List.app_assoc. f_equal.
      clear. induction (startResolutions (net h) (validItems items))
        as [ | [k r] rs IH ]; [ reflexivity | ].
      unfold requestsOf in *. cbn [List.flat_map snd].
      rewrite requestsIn_app, List.map_app, <- IH. f_equal.
      clear. induction (requested r) as [ | s l IH ]; [ reflexivity | ].
      simpl. f_equal. exact IH.
    - rewrite !requestsIn_app.
      rewrite (requestsIn_plain _ (headerOps_plain h client)).
      rewrite (requestsIn_none (logoOps decodes v)).
      2:{ intros o Ho src ->.
          destruct (logoOps_ops _ _ _ Ho) as (? & _ & _ & _ & E).
          discriminate E. }
      rewrite (requestsIn_none drawn).
      2:{ intros o Ho src ->. destruct (Hdrawn _ Ho) as [Hth _].
          apply List.in_flat_map in Hth as (data & _ & Hth).
          destruct (hookResult_ops _ _ _ _ Hth) as (? & ? & ? & ? & E & _).
          discriminate E. }
      rewrite (requestsIn_none rest).
      2:{ intros o Ho src ->. destruct (Hrest _ Ho) as [ E | E ];
            discriminate E. }
      reflexivity. }
  split; [ | exact Hall ].
  destruct (Hall acceptsAll) as (drawn & E & Hnone).
  destruct (generatePDF_returns h items client Hne)
    as (stores & fetched & _ & Hret).
  rewrite Hret in E |- *. cbn [traceOf] in E.
  exists drawn. split; [ f_equal; exact E | exact Hnone ].
Qed.

Lemma export_requests_witness :
  exists drawn,
    generatePDF acceptsAll promptHost
      (Some [Object (pictured 7); Object (statue 1 JUndefined);
             Object (pictured 0); Object (pictured 8)]) anonymous
    = Returned (NewDocument
                :: List.map Request
                     [lit "https://cdn.example/santo.png";
                      lit "https://cdn.example/santo.png"; logoUrl]
                ++ drawn)
    /\ requestsIn drawn = [].
Proof.
  apply (export_requests promptHost
           (Some [Object (pictured 7); Object (statue 1 JUndefined);
                  Object (pictured 0); Object (pictured 8)]) anonymous).
  discriminate.
Defined.

(** X15.  When the hook draws, it draws one image, one that jsPDF
    accepts, in a cell of column 0 of the body, 18 wide and 18 high,
    with equal margins left and right and equal margins above and below.
    The image lies between the left and right edges of its cell when the
    cell is at least 18 wide, and between its upper and lower edges when
    the cell is at least 18 high (the table asks for 22 by 22): then it
    does not spill over the neighbouring cells. *)
Theorem thumbnail_inside_cell (decodes : decoder) (valid : list ItemObject)
  (cache : imageCacheT) (data : CellHookData) (ops : list op)
  (img : jsstring) (x y w hh : Q) :
  didDrawCell decodes valid cache data = Ret ops ->
  In (AddImage img x y w hh) ops ->
  ops = [AddImage img x y w hh]
  /\ decodes img = true
  /\ section data = Body /\ columnIndex data = 0
  /\ w = 18%Q /\ hh = 18%Q
  /\ (x - cellX data == cellX data + cellWidth data - (x + w))%Q
  /\ (y - cellY data == cellY data + cellHeight data - (y + hh))%Q
  /\ ((18 <= cellWidth data)%Q ->
      (cellX data <= x)%Q /\ (x + w <= cellX data + cellWidth data)%Q)
  /\ ((18 <= cellHeight data)%Q ->
      (cellY data <= y)%Q /\ (y + hh <= cellY data + cellHeight data)%Q).
Proof.
  unfold didDrawCell.
  destruct (section data) eqn:Hs; simpl;
    try (intros [= <-] []).
  destruct (Z.eqb_spec (columnIndex data) 0) as [ Hc | Hc ];
    [ | intros [= <-] [] ].
  destruct (arrayGet valid (rowIndex data)) as [ item | ]; simpl;
    [ | intros [= <-] [] ].
  destruct (idTruthy (id item)); simpl; [ | intros [= <-] [] ].
  destruct (cachedImage cache (toPropertyKey (id item))) as [ base64 | ];
    [ | intros [= <-] [] ].
  unfold addImage. destruct (decodes base64) eqn:Hd; [ | discriminate ].
  intros [= <-] [ [= -> <- <- <- <-] | [] ]. unfold imgSize.
  split; [ reflexivity | ]. split; [ exact Hd | ].
  split; [ reflexivity | ]. split; [ exact Hc | ].
  split; [ reflexivity | ]. split; [ reflexivity | ].
  split; [ field | ]. split; [ field | ].
  unfold Qdiv. change (/ 2)%Q with (1 # 2)%Q.
  split; intros ?; split; lra.
Qed.

Lemma thumbnail_inside_cell_witness :
  (15 <= 15 + (22 - 18) / 2)%Q
  /\ (15 + (22 - 18) / 2 + 18 <= 15 + 22)%Q
  /\ (73 <= 73 + (22 - 18) / 2)%Q
  /\ (73 + (22 - 18) / 2 + 18 <= 73 + 22)%Q.
Proof.
  destruct (thumbnail_inside_cell acceptsAll [pictured 7]
              (storeAll [(100%N, toPropertyKey (Some (Num 7)),
                          Some (lit "data:image/png;base64,iVBORw0KGgo="))])
              (thumbnailCell 0)
              [AddImage (lit "data:image/png;base64,iVBORw0KGgo=")
                 (15 + (22 - 18) / 2)%Q (73 + (22 - 18) / 2)%Q 18 18]
              (lit "data:image/png;base64,iVBORw0KGgo=")
              (15 + (22 - 18) / 2)%Q (73 + (22 - 18) / 2)%Q 18 18)
    as (_ & _ & _ & _ & _ & _ & _ & _ & H1 & H2).
  - reflexivity.
  - left. reflexivity.
  - destruct H1 as [H1 H1']; [ discriminate | ].
    destruct H2 as [H2 H2']; [ discriminate | ].
    auto.
Defined.

(** * The date of a session *)

Section SessionDate.

Import JsDate Session.

Lemma doy_bounds (doe : Z) :
  0 <= doe < 146097 ->
  let yoe := (doe - doe / 1460 + doe / 36524 - doe / 146096) / 365 in
  let doy := doe - (365 * yoe + yoe / 4 - yoe / 100) in
  0 <= yoe < 400 /\ 0 <= doy <= 365
  /\ (doy = 365 ->
      ((yoe + 1) mod 4 = 0 /\ (yoe + 1) mod 100 <> 0)
      \/ (yoe + 1) mod 400 = 0).
Proof.
  intros H yoe doy. subst doy yoe.
  Z.div_mod_to_equations; lia.
Qed.

Lemma day_bounds (doy : Z) :
  0 <= doy <= 365 ->
  let mp := (5 * doy + 2) / 153 in
  let d := doy - (153 * mp + 2) / 5 + 1 in
  0 <= mp <= 11 /\ 1 <= d <= 31
  /\ (mp = 11 -> d <= 29 /\ (d = 29 -> doy = 365))
  /\ (mp = 1 \/ mp = 3 \/ mp = 6 \/ mp = 8 -> d <= 30).
Proof.
  intros H mp d. subst d mp.
  Z.div_mod_to_equations; lia.
Qed.

Lemma isLeap_intro (y : Z) :
  (y mod 4 = 0 /\ y mod 100 <> 0) \/ y mod 400 = 0 -> isLeap y = true.
Proof.
  unfold isLeap. intros [ [H4 H100] | H400 ].
  - apply orb_true_iff. left. apply andb_true_iff. split; [ lia | ].
    apply negb_true_iff. lia.
  - apply orb_true_iff. right. lia.
Qed.

(** The fields of a day number form a date of the calendar. *)
Lemma civilFromDays_valid (z y m d : Z) :
  civilFromDays z = (y, m, d) ->
  1 <= m <= 12 /\ 1 <= d <= daysInMonth y m.
Proof.
  unfold civilFromDays. cbv zeta.
  set (era := (z + 719468) / 146097).
  set (doe := z + 719468 - era * 146097).
  assert (0 <= doe < 146097) as Hdoe
      by (subst doe era; Z.div_mod_to_equations; lia).
  destruct (doy_bounds doe Hdoe) as (Hyoe & Hdoy & Hleap).
  cbv zeta in Hyoe, Hdoy, Hleap.
  set (yoe := (doe - doe / 1460 + doe / 36524 - doe / 146096) / 365) in *.
  set (doy := doe - (365 * yoe + yoe / 4 - yoe / 100)) in *.
  destruct (day_bounds doy Hdoy) as (Hmp & Hd & Hfeb & H30).
  cbv zeta in Hmp, Hd, Hfeb, H30.
  set (mp := (5 * doy + 2) / 153) in *.
  set (dd := doy - (153 * mp + 2) / 5 + 1) in *.
  intros [= <- <- <-].
  split; [ destruct (Z.ltb_spec mp 10); lia | ].
  split; [ lia | ].
  unfold daysInMonth.
  destruct (Z.ltb_spec mp 10) as [ Hlt | Hge ].
  - destruct (Z.eqb_spec (mp + 3) 2); [ lia | ].
    destruct (Z.eqb_spec (mp + 3) 4), (Z.eqb_spec (mp + 3) 6),
      (Z.eqb_spec (mp + 3) 9), (Z.eqb_spec (mp + 3) 11); simpl; lia.
  - destruct (Z.eqb_spec (mp - 9) 2) as [ E2 | N2 ].
    + assert (mp = 11) as E11 by lia.
      destruct (Hfeb E11) as [H29 Hfull].
      rewrite E2. change (2 <=? 2) with true. cbv iota.
      destruct (isLeap (yoe + era * 400 + 1)) eqn:Hl; [ lia | ].
      assert (dd <> 29); [ | lia ].
      intros E29. specialize (Hleap (Hfull E29)).
      rewrite isLeap_intro in Hl; [ discriminate | ].
      clear -Hleap. Z.div_mod_to_equations; lia.
    + destruct (Z.eqb_spec (mp - 9) 4), (Z.eqb_spec (mp - 9) 6),
        (Z.eqb_spec (mp - 9) 9), (Z.eqb_spec (mp - 9) 11); simpl; lia.
Qed.

Lemma digit_digitChar (k : Z) :
  0 <= k <= 9 -> digit (digitChar k) = Some k.
Proof.
  intros H. unfold digit, digitChar.
  destruct (N.leb_spec 48 (48 + Z.to_N k)); [ | lia ].
  destruct (N.leb_spec (48 + Z.to_N k) 57); [ | lia ].
  simpl. f_equal. lia.
Qed.

Lemma number_pad2 (k : Z) : 0 <= k <= 99 -> number 0 (pad2 k) = Some k.
Proof.
  intros H. unfold pad2. simpl.
  rewrite !digit_digitChar by (Z.div_mod_to_equations; lia).
  f_equal. Z.div_mod_to_equations; lia.
Qed.

Lemma number_pad4 (k : Z) : 0 <= k <= 9999 -> number 0 (pad4 k) = Some k.
Proof.
  intros H. unfold pad4. simpl.
  rewrite !digit_digitChar by (Z.div_mod_to_equations; lia).
  f_equal. Z.div_mod_to_equations; lia.
Qed.

Lemma parseCalendar_iso (y m d : Z) :
  0 <= y <= 9999 -> 0 <= m <= 99 -> 0 <= d <= 99 ->
  parseCalendar (pad4 y ++ lit "-" ++ pad2 m ++ lit "-" ++ pad2 d)
  = Some (y, m, d).
Proof.
  intros Hy Hm Hd. unfold parseCalendar.
  change (List.length (pad4 y ++ lit "-" ++ pad2 m ++ lit "-" ++ pad2 d))
    with 10%nat.
  change (firstn 4 (pad4 y ++ lit "-" ++ pad2 m ++ lit "-" ++ pad2 d))
    with (pad4 y).
  change (firstn 2 (skipn 5 (pad4 y ++ lit "-" ++ pad2 m ++ lit "-" ++ pad2 d)))
    with (pad2 m).
  change (skipn 8 (pad4 y ++ lit "-" ++ pad2 m ++ lit "-" ++ pad2 d))
    with (pad2 d).
  unfold fixedNumber.
  change (Nat.eqb (List.length (pad4 y)) 4) with true.
  change (Nat.eqb (List.length (pad2 m)) 2) with true.
  change (Nat.eqb (List.length (pad2 d)) 2) with true.
  cbv iota.
  rewrite (number_pad4 y Hy), (number_pad2 m Hm), (number_pad2 d Hd).
  reflexivity.
Qed.

End SessionDate.

Lemma isoDate_in_range (startMs y m d : Z) :
  JsDate.civilFromDays (startMs / JsDate.msPerDay) = (y, m, d) ->
  0 <= y <= 9999 ->
  Session.isoDate startMs
  = Session.pad4 y ++ lit "-" ++ Session.pad2 m ++ lit "-" ++ Session.pad2 d.
Proof.
  intros Hc Hy. unfold Session.isoDate. rewrite Hc. unfold Session.isoYear.
  destruct (Z.leb_spec 0 y); [ | lia ].
  destruct (Z.leb_spec y 9999); [ | lia ].
  reflexivity.
Qed.


